(** * PrimeTrade task dashboard: the REST backend

    A shallow embedding of the Express route handlers of
    [backend/routes/tasks.js], [backend/routes/auth.js] and
    [backend/routes/users.js], over an in-memory model of the two MongoDB
    collections they query through Mongoose.

    Conventions.
    - A handler is a function from the request (the authenticated
      [req.user._id], the parameter, body or query) and the store to an
      [outcome] and the next store.
    - A JavaScript string is the [string] of the bytes of its UTF-8
      encoding: [JS.utf16_length] is its [length] (UTF-16 code units),
      [JS.code_points] the number of its characters, which is what
      validator.js counts.
    - ObjectIds are natural numbers; the store keeps a counter above
      every id in use.  [req.params.id] is the string of the URL, which
      Mongoose casts.
    - A key of a body that a chain reads carries a JSON string when it
      is present, [tags] any JSON value; the other keys of the body are
      kept with their JSON values.  A value of a query is a string, an
      integer literal for [page] and [limit].
    - Mongoose is modelled on the documents made of the keys the chains
      read and [user]; what it does with a document that has other keys
      (update operators, [_id], timestamps, unknown paths) is part of
      the interface [Platform], like the other libraries the handlers
      call (validator.js, [Date], bcryptjs, jsonwebtoken, the regular
      expression engines of V8 and of the database).
    - An operation of the database that throws is [None]; the handlers
      answer it with the 500 of their [catch]. *)

From Stdlib Require Import ZArith List String Ascii Bool Lia Permutation.
From stdpp Require Import base option list gmap strings pretty.
Import ListNotations.

Local Open Scope string_scope.
Local Open Scope list_scope.

(** ** JavaScript and validator.js primitives *)

Module JS.

Definition chars (s : string) : list ascii := list_ascii_of_string s.
Definition of_chars (l : list ascii) : string := string_of_list_ascii l.

(** [\s] restricted to the ASCII white space characters. *)
Definition is_space (c : ascii) : bool :=
  let n := nat_of_ascii c in
  (n =? 32)%nat || ((9 <=? n)%nat && (n <=? 13)%nat).

Fixpoint ltrim_chars (l : list ascii) : list ascii :=
  match l with
  | c :: l' => if is_space c then ltrim_chars l' else l
  | [] => []
  end.

(** validator.js [trim(str)]: white space removed at both ends. *)
Definition trim (s : string) : string :=
  of_chars (rev (ltrim_chars (rev (ltrim_chars (chars s))))).

(** validator.js [isEmpty] negated: [notEmpty()]. *)
Definition notEmpty (s : string) : bool := negb (String.length s =? 0)%nat.

(** The bytes [10xxxxxx] that continue a character in UTF-8. *)
Definition is_continuation (c : ascii) : bool :=
  let n := nat_of_ascii c in (128 <=? n)%nat && (n <? 192)%nat.

(** The number of continuation bytes the first byte of a character
    announces. *)
Definition continuations (c : ascii) : nat :=
  let n := nat_of_ascii c in
  if (n <? 192)%nat then 0
  else if (n <? 224)%nat then 1
  else if (n <? 240)%nat then 2
  else if (n <? 248)%nat then 3
  else 0.

(** The characters of a byte sequence, [expect] being the number of
    continuation bytes the character at hand still takes.  A continuation
    byte that continues nothing is a character of its own. *)
Fixpoint decode_count (expect : nat) (l : list ascii) : nat :=
  match l with
  | [] => 0
  | c :: l' =>
      if is_continuation c then
        match expect with
        | S k => decode_count k l'
        | O => S (decode_count 0 l')
        end
      else S (decode_count (continuations c) l')
  end.

(** The number of characters (code points) of a string. *)
Definition code_points (s : string) : nat := decode_count 0 (chars s).

(** The first byte [11110xxx] of a character outside the Basic
    Multilingual Plane, which takes a surrogate pair in UTF-16. *)
Definition is_astral (c : ascii) : bool :=
  let n := nat_of_ascii c in (240 <=? n)%nat && (n <? 248)%nat.

(** The surrogate pairs of the string in UTF-16: one for each such
    character. *)
Definition surrogate_pairs (s : string) : nat :=
  length (List.filter is_astral (chars s)).

(** [str.length]: the UTF-16 code units, two for a surrogate pair. *)
Definition utf16_length (s : string) : nat := code_points s + surrogate_pairs s.

(** validator.js [isLength(str, {min, max})]; an absent bound is [None].
    It counts [str.length - surrogatePairs.length]. *)
Definition isLength (min : nat) (max : option nat) (s : string) : bool :=
  let len := utf16_length s - surrogate_pairs s in
  (min <=? len)%nat && match max with Some m => (len <=? m)%nat | None => true end.

Definition is_digit (c : ascii) : bool :=
  let n := nat_of_ascii c in (48 <=? n)%nat && (n <=? 57)%nat.

(** [matches(/\d/)]: some character is a decimal digit. *)
Definition matches_digit (s : string) : bool := existsb is_digit (chars s).

(** validator.js [isIn(str, values)]. *)
Definition isIn (values : list string) (s : string) : bool :=
  existsb (String.eqb s) values.

(** [isInt({min, max})] on a value that is an integer literal. *)
Definition isInt (min : Z) (max : option Z) (n : Z) : bool :=
  (min <=? n)%Z && match max with Some m => (n <=? m)%Z | None => true end.

(** [Math.ceil(a / b)] on integers: [None] stands for the non-finite
    results ([Infinity], [NaN]) of a division by zero. *)
Definition Math_ceil_div (a b : Z) : option Z :=
  if (b =? 0)%Z then None else Some (- ((- a) / b))%Z.

Definition lower (c : ascii) : ascii :=
  let n := nat_of_ascii c in
  if (65 <=? n)%nat && (n <=? 90)%nat then ascii_of_nat (n + 32) else c.

Definition toLowerCase (s : string) : string := of_chars (map lower (chars s)).

Fixpoint starts_with (p l : list ascii) : bool :=
  match p, l with
  | [], _ => true
  | a :: p', b :: l' => Ascii.eqb a b && starts_with p' l'
  | _ :: _, [] => false
  end.

Fixpoint includes_chars (p l : list ascii) : bool :=
  starts_with p l || match l with [] => false | _ :: l' => includes_chars p l' end.

(** Literal, case-insensitive substring test: the reading of "search
    text" that does not go through a regular expression. *)
Definition includes_ci (needle hay : string) : bool :=
  includes_chars (map lower (chars needle)) (map lower (chars hay)).

End JS.

(** ** A regular expression engine for a fragment of the pattern syntax

    Literals, [.], the postfix operators [*], [+], [?], alternation [|],
    groups [( )] and escaped punctuation.  It is the engine of the sample
    platform below; the handlers themselves are written against the
    [Platform] interface.  A pattern outside the fragment (classes,
    anchors, counted or lazy repetition, letter escapes) is refused. *)

Module MiniRegex.

Inductive re : Type :=
| Empty
| Eps
| Chr (c : ascii)
| Any
| Cat (r1 r2 : re)
| Alt (r1 r2 : re)
| Star (r : re).

Fixpoint nullable (r : re) : bool :=
  match r with
  | Empty => false
  | Eps => true
  | Chr _ => false
  | Any => false
  | Cat r1 r2 => nullable r1 && nullable r2
  | Alt r1 r2 => nullable r1 || nullable r2
  | Star _ => true
  end.

(** Derivative by one character, letters compared without case (flag [i]). *)
Fixpoint deriv (a : ascii) (r : re) : re :=
  match r with
  | Empty => Empty
  | Eps => Empty
  | Chr c => if Ascii.eqb (JS.lower c) (JS.lower a) then Eps else Empty
  | Any => Eps
  | Cat r1 r2 =>
      if nullable r1 then Alt (Cat (deriv a r1) r2) (deriv a r2)
      else Cat (deriv a r1) r2
  | Alt r1 r2 => Alt (deriv a r1) (deriv a r2)
  | Star r1 => Cat (deriv a r1) (Star r1)
  end.

Fixpoint matches (r : re) (l : list ascii) : bool :=
  match l with
  | [] => nullable r
  | a :: l' => matches (deriv a r) l'
  end.

(** An unanchored pattern matches when some substring does. *)
Definition search (r : re) (s : string) : bool :=
  matches (Cat (Star Any) (Cat r (Star Any))) (JS.chars s).

Definition is_quantifier (c : ascii) : bool :=
  Ascii.eqb c "*" || Ascii.eqb c "+" || Ascii.eqb c "?".

Definition outside_fragment (c : ascii) : bool :=
  existsb (Ascii.eqb c) ["["; "]"; "{"; "}"; "^"; "$"]%char.

Definition is_alnum (c : ascii) : bool :=
  let n := nat_of_ascii c in
  JS.is_digit c || ((65 <=? n)%nat && (n <=? 90)%nat)
  || ((97 <=? n)%nat && (n <=? 122)%nat).

Definition quantify (a : re) (cs : list ascii) : re * list ascii :=
  match cs with
  | "*"%char :: rest => (Star a, rest)
  | "+"%char :: rest => (Cat a (Star a), rest)
  | "?"%char :: rest => (Alt Eps a, rest)
  | _ => (a, cs)
  end.

Fixpoint parse_alt (fuel : nat) (cs : list ascii) : option (re * list ascii) :=
  match fuel with
  | O => None
  | S f =>
      match parse_seq f cs with
      | Some (r, "|"%char :: rest) =>
          match parse_alt f rest with
          | Some (r', rest') => Some (Alt r r', rest')
          | None => None
          end
      | other => other
      end
  end
with parse_seq (fuel : nat) (cs : list ascii) : option (re * list ascii) :=
  match fuel with
  | O => None
  | S f =>
      match cs with
      | [] => Some (Eps, [])
      | c :: _ =>
          if Ascii.eqb c "|" || Ascii.eqb c ")" then Some (Eps, cs)
          else
            match parse_atom f cs with
            | Some (a, rest) =>
                let '(a', rest') := quantify a rest in
                match parse_seq f rest' with
                | Some (r, rest'') => Some (Cat a' r, rest'')
                | None => None
                end
            | None => None
            end
      end
  end
with parse_atom (fuel : nat) (cs : list ascii) : option (re * list ascii) :=
  match fuel with
  | O => None
  | S f =>
      match cs with
      | [] => None
      | "("%char :: rest =>
          match parse_alt f rest with
          | Some (r, ")"%char :: rest') => Some (r, rest')
          | _ => None
          end
      | "."%char :: rest => Some (Any, rest)
      | "\"%char :: c :: rest => if is_alnum c then None else Some (Chr c, rest)
      | "\"%char :: [] => None
      | c :: rest =>
          if is_quantifier c || outside_fragment c then None
          else Some (Chr c, rest)
      end
  end.

(** The whole pattern must be consumed: a stray [)] is an error. *)
Definition compile (pattern : string) : option re :=
  let cs := JS.chars pattern in
  match parse_alt (4 * length cs + 4) cs with
  | Some (r, []) => Some r
  | _ => None
  end.

End MiniRegex.

(** ** Documents and request bodies *)

Definition ObjectId : Type := nat.

(** A document of the [users] collection.  [u_password] is the bcrypt
    hash; it is [None] on a document read without [select('+password')]
    and after [user.password = undefined]. *)
Record User : Type := {
  u_id : ObjectId;
  u_name : string;
  u_email : string;
  u_password : option string;
  u_bio : string
}.

(** A document of the [tasks] collection. *)
Record Task : Type := {
  t_id : ObjectId;
  t_user : ObjectId;
  t_title : string;
  t_description : option string;
  t_status : string;
  t_priority : string;
  t_dueDate : option Z;
  t_tags : list string;
  t_createdAt : Z;
  t_updatedAt : Z
}.

(** The two collections, each in insertion order, and the ObjectId counter. *)
Record store : Type := {
  users : list User;
  tasks : list Task;
  next_id : ObjectId
}.

Definition empty_store : store := {| users := []; tasks := []; next_id := 0 |}.

(** A JSON value, numbers being integers. *)
#[warnings="-register-all"]
Inductive json : Type :=
| JNull
| JBool (b : bool)
| JNum (n : Z)
| JStr (s : string)
| JArr (items : list json)
| JObj (entries : list (string * json)).

(** [req.body] of POST and PUT on [/api/tasks].  A key the chains read,
    and [user], is [None] when the JSON object does not have it;
    [title], [description], [status], [priority], [dueDate] and [user]
    carry a JSON string, [tags] any JSON value.  [b_other] is every
    other key of the object with its value: an update operator such as
    [$set] or [$rename], [_id], a timestamp, a key that is no path of a
    task. *)
Record task_body : Type := {
  b_title : option string;
  b_description : option string;
  b_status : option string;
  b_priority : option string;
  b_dueDate : option string;
  b_tags : option json;
  b_user : option string;
  b_other : list (string * json)
}.


(** ** The libraries behind the handlers *)

(** The result of [jwt.verify(token, secret)]: the decoded id, or one of
    the two errors the middleware tells apart. *)
Inductive jwt_result : Type :=
| Decoded (id : nat)
| JsonWebTokenError
| TokenExpiredError.

(** What the handlers take from validator.js, [Date], bcryptjs,
    jsonwebtoken, the two regular expression engines and Mongoose.
    - [Date_parse] is [new Date(str)] as the Date cast of Mongoose uses
      it: [None] for an Invalid Date, which is a CastError.
    - [RegExp_valid] is the syntax check of [new RegExp(pattern, 'i')],
      which throws a [SyntaxError] when it fails; [regex_compile] is the
      database compiling a [$regex] with [$options: 'i'], [None] when it
      reports an error for the query.
    - [castObjectId] is the ObjectId cast of a string, [None] for a
      CastError; [castString] the String cast of a JSON scalar that is
      no string.
    - [Mongoose_document] is [Task.create(doc)] building the document
      for a [doc] that has other keys than those the chains read, from
      the id the driver would give, the time and the owner the handler
      stamps; [None] when it throws.
    - [Mongoose_update] is the cast of an update document that has such
      other keys: [None] when the cast or an update validator throws;
      else what the database makes of the document the filter selects,
      [None] when it refuses the update. *)
Class Platform : Type := {
  isEmail : string -> bool;
  normalizeEmail : string -> string;
  isISO8601 : string -> bool;
  Date_parse : string -> option Z;
  bcrypt_hash : string -> string -> string;
  bcrypt_compare : string -> string -> bool;
  jwt_sign : nat -> string;
  jwt_verify : string -> jwt_result;
  RegExp_valid : string -> bool;
  regex_compile : string -> option (string -> bool);
  castObjectId : string -> option ObjectId;
  castString : json -> option string;
  Mongoose_document : ObjectId -> Z -> ObjectId -> task_body -> option Task;
  Mongoose_update : Z -> task_body -> option (Task -> option Task)
}.

(** [bcrypt.compare(p, bcrypt.hash(p, salt))] holds for every salt. *)
Definition bcrypt_sound `{Platform} : Prop :=
  forall salt p, bcrypt_compare p (bcrypt_hash salt p) = true.

(** A small platform for running the handlers on concrete requests. *)
Module Sample.

Definition has_at (s : string) : bool := existsb (Ascii.eqb "@") (JS.chars s).

(** Two forms of ISO 8601: the calendar date [YYYY-MM-DD] and the week
    date [YYYY-Www]. *)
Definition calendar_date (s : string) : bool :=
  (String.length s =? 10)%nat
  && forallb (fun c => JS.is_digit c || Ascii.eqb c "-") (JS.chars s).

Definition week_date (s : string) : bool :=
  match JS.chars s with
  | [y1; y2; y3; y4; dash; w; w1; w2] =>
      forallb JS.is_digit [y1; y2; y3; y4; w1; w2]
      && Ascii.eqb dash "-" && Ascii.eqb w "W"
  | _ => false
  end.

Definition iso_date (s : string) : bool := calendar_date s || week_date s.

Definition digits_value (s : string) : Z :=
  fold_left (fun acc c => if JS.is_digit c
                          then (acc * 10 + Z.of_nat (nat_of_ascii c - 48))%Z
                          else acc) (JS.chars s) 0%Z.

(** [Date] reads a calendar date; a week date is an Invalid Date. *)
Definition date_value (s : string) : option Z :=
  if calendar_date s then Some (digits_value s) else None.

(** A stand-in for bcrypt: the hash is the salt, a separator and the
    plaintext; a plaintext matches a hash that ends with the separator
    and the plaintext. *)
Definition hash (salt p : string) : string := salt ++ "$" ++ p.

Definition compare (p h : string) : bool :=
  JS.starts_with (rev (JS.chars ("$" ++ p))) (rev (JS.chars h)).

Definition hex_digit (c : ascii) : option N :=
  let n := nat_of_ascii c in
  if JS.is_digit c then Some (N.of_nat (n - 48))
  else if (97 <=? n)%nat && (n <=? 102)%nat then Some (N.of_nat (n - 87))
  else if (65 <=? n)%nat && (n <=? 70)%nat then Some (N.of_nat (n - 55))
  else None.

(** An ObjectId is written as 24 hexadecimal digits; its number is their
    value. *)
Definition object_id (s : string) : option nat :=
  if (String.length s =? 24)%nat then
    N.to_nat <$>
      fold_left (fun acc c =>
                   match acc, hex_digit c with
                   | Some a, Some d => Some (16 * a + d)%N
                   | _, _ => None
                   end) (JS.chars s) (Some 0%N)
  else None.

(** [String(v)] for a number and a boolean. *)
Definition scalar_string (v : json) : option string :=
  match v with
  | JNum n => Some (pretty n)
  | JBool b => Some (if b then "true" else "false")
  | _ => None
  end.

Definition is_str (s : string) (v : json) : bool :=
  match v with JStr x => String.eqb x s | _ => false end.

(** A stand-in for the update operators: an update document whose one
    other key is [$rename] of [description] to [status], [$unset] of
    [description] or [$push] of a string on [tags] does to the selected
    document what the operator says; any other is refused. *)
Definition update_operators (now : Z) (upd : task_body)
  : option (Task -> option Task) :=
  match b_other upd with
  | [(op, JObj [(path, v)])] =>
      if String.eqb op "$rename" && String.eqb path "description"
         && is_str "status" v then
        Some (fun t =>
                Some match t_description t with
                     | Some d =>
                         {| t_id := t_id t; t_user := t_user t;
                            t_title := t_title t; t_description := None;
                            t_status := d; t_priority := t_priority t;
                            t_dueDate := t_dueDate t; t_tags := t_tags t;
                            t_createdAt := t_createdAt t; t_updatedAt := now |}
                     | None => t
                     end)
      else if String.eqb op "$unset" && String.eqb path "description" then
        Some (fun t =>
                Some {| t_id := t_id t; t_user := t_user t;
                        t_title := t_title t; t_description := None;
                        t_status := t_status t; t_priority := t_priority t;
                        t_dueDate := t_dueDate t; t_tags := t_tags t;
                        t_createdAt := t_createdAt t; t_updatedAt := now |})
      else if String.eqb op "$push" && String.eqb path "tags" then
        match v with
        | JStr tag =>
            Some (fun t =>
                    Some {| t_id := t_id t; t_user := t_user t;
                            t_title := t_title t;
                            t_description := t_description t;
                            t_status := t_status t; t_priority := t_priority t;
                            t_dueDate := t_dueDate t; t_tags := t_tags t ++ [tag];
                            t_createdAt := t_createdAt t; t_updatedAt := now |})
        | _ => None
        end
      else None
  | _ => None
  end.

Definition platform : Platform := {|
  isEmail := has_at;
  normalizeEmail := JS.toLowerCase;
  isISO8601 := iso_date;
  Date_parse := date_value;
  bcrypt_hash := hash;
  bcrypt_compare := compare;
  jwt_sign := fun id => JS.of_chars (repeat "j"%char (S id));
  jwt_verify := fun t =>
    match JS.chars t with
    | c :: l => if forallb (Ascii.eqb "j") (c :: l) then Decoded (length l)
                else JsonWebTokenError
    | [] => JsonWebTokenError
    end;
  RegExp_valid := fun p => bool_decide (is_Some (MiniRegex.compile p));
  regex_compile := fun p =>
    match MiniRegex.compile p with
    | Some r => Some (MiniRegex.search r)
    | None => None
    end;
  castObjectId := object_id;
  castString := scalar_string;
  Mongoose_document := fun _ _ _ _ => None;
  Mongoose_update := update_operators
|}.

End Sample.

(** ** Requests and responses *)

(** [req.query] of GET [/api/tasks]; [page] and [limit] are integer literals. *)
Record list_query : Type := {
  q_status : option string;
  q_priority : option string;
  q_search : option string;
  q_page : option Z;
  q_limit : option Z;
  q_sortBy : option string;
  q_order : option string
}.

Definition no_query : list_query :=
  {| q_status := None; q_priority := None; q_search := None; q_page := None;
     q_limit := None; q_sortBy := None; q_order := None |}.

Record register_body : Type := {
  r_name : option string;
  r_email : option string;
  r_password : option string
}.

Record login_body : Type := {
  l_email : option string;
  l_password : option string
}.

Record password_body : Type := {
  p_currentPassword : option string;
  p_newPassword : option string
}.

(** One entry of [errors.array().map(e => ({ field: e.path, message: e.msg }))]. *)
Record field_error : Type := { field : string; message : string }.

Record pagination : Type := {
  pg_total : nat;
  pg_page : Z;
  pg_pages : option Z;
  pg_limit : Z
}.

(** The JSON sent back, by shape. *)
Inductive payload : Type :=
| ErrorJson (error : string)
| ErrorsJson (errors : list field_error)
| MessageJson (msg : string)
| TaskJson (task : Task)
| TasksJson (found : list Task) (pg : pagination)
| StatsJson (summary priority : gmap string nat)
| AuthJson (token : string) (user : User).

Inductive js_error : Type :=
| SyntaxError (pattern : string).

(** What a handler does with a request: it sends a response with a status
    code, or an exception leaves it. *)
Inductive outcome : Type :=
| Respond (status : nat) (body : payload)
| Uncaught (e : js_error).

Definition status_of (o : outcome) : option nat :=
  match o with Respond st _ => Some st | Uncaught _ => None end.

(** ** express-validator chains *)

Definition check (ok : bool) (f m : string) : list field_error :=
  if ok then [] else [{| field := f; message := m |}].

(** [.optional()]: the chain is skipped when the key is absent. *)
Definition optional {A : Type} (v : option A) (chain : A -> list field_error)
  : list field_error :=
  match v with Some x => chain x | None => [] end.

Definition statuses : list string := ["todo"; "in-progress"; "done"].
Definition priorities : list string := ["low"; "medium"; "high"].

(** [Array.isArray(value)] *)
Definition isArray (v : json) : bool :=
  match v with JArr _ => true | _ => false end.

Definition truthy (s : string) : bool := negb (String.eqb s "").

(** The array of strings [tags] as a JSON value. *)
Definition strings (tags : list string) : json := JArr (JStr <$> tags).

Section Handlers.

Context `{Platform}.

(** *** [backend/routes/tasks.js] *)

(** The chains of [router.post('/')]. *)
Definition post_task_validators (b : task_body) : list field_error :=
  (let title := JS.trim (default "" (b_title b)) in
   check (JS.notEmpty title) "title" "Title is required"
   ++ check (JS.isLength 0 (Some 100) title) "title"
        "Title cannot exceed 100 characters")
  ++ optional (b_description b) (fun d =>
       check (JS.isLength 0 (Some 500) (JS.trim d)) "description" "Invalid value")
  ++ optional (b_status b) (fun v =>
       check (JS.isIn statuses v) "status" "Invalid value")
  ++ optional (b_priority b) (fun v =>
       check (JS.isIn priorities v) "priority" "Invalid value")
  ++ optional (b_dueDate b) (fun v =>
       check (isISO8601 v) "dueDate" "Invalid date format")
  ++ optional (b_tags b) (fun v => check (isArray v) "tags" "Invalid value").

(** The chains of [router.put('/:id')]. *)
Definition put_task_validators (b : task_body) : list field_error :=
  optional (b_title b) (fun t =>
    check (JS.isLength 1 (Some 100) (JS.trim t)) "title" "Invalid value")
  ++ optional (b_description b) (fun d =>
       check (JS.isLength 0 (Some 500) (JS.trim d)) "description" "Invalid value")
  ++ optional (b_status b) (fun v =>
       check (JS.isIn statuses v) "status" "Invalid value")
  ++ optional (b_priority b) (fun v =>
       check (JS.isIn priorities v) "priority" "Invalid value")
  ++ optional (b_dueDate b) (fun v =>
       check (isISO8601 v) "dueDate" "Invalid value")
  ++ optional (b_tags b) (fun v => check (isArray v) "tags" "Invalid value").

(** The sanitizers of the chains write their result back to [req.body]:
    [trim()] on [title] (also when the key is absent, which gives the
    empty string) and on [description]. *)
Definition post_task_sanitize (b : task_body) : task_body :=
  {| b_title := Some (JS.trim (default "" (b_title b)));
     b_description := JS.trim <$> b_description b;
     b_status := b_status b; b_priority := b_priority b;
     b_dueDate := b_dueDate b; b_tags := b_tags b; b_user := b_user b;
     b_other := b_other b |}.

Definition put_task_sanitize (b : task_body) : task_body :=
  {| b_title := JS.trim <$> b_title b;
     b_description := JS.trim <$> b_description b;
     b_status := b_status b; b_priority := b_priority b;
     b_dueDate := b_dueDate b; b_tags := b_tags b; b_user := b_user b;
     b_other := b_other b |}.

(** **** Mongoose's casts *)

(** The Date cast of [dueDate]: [None] is the CastError for a string
    [Date] cannot parse. *)
Definition cast_dueDate (v : option string) : option (option Z) :=
  match v with
  | None => Some None
  | Some d =>
      match Date_parse d with
      | Some date => Some (Some date)
      | None => None
      end
  end.

(** The String cast of an element of [tags]: an array or an object is a
    CastError. *)
Definition cast_tag (v : json) : option string :=
  match v with
  | JStr tag => Some tag
  | JArr _ | JObj _ => None
  | _ => castString v
  end.

(** Modelled from the spec: the path [tags] of [models/Task.js], which
    is not under [src/].  The spec gives a task a "set of tags (≤5,
    deduplicated)": the elements are cast to strings, repetitions are
    dropped, and a set of more than five tags is refused.  A value that
    is no array is cast as the array of that value. *)
Definition cast_tags (v : json) : option (list string) :=
  match match v with
        | JArr items => mapM cast_tag items
        | _ => (fun tag => [tag]) <$> cast_tag v
        end with
  | Some l =>
      let tags := remove_dups l in
      if (length tags <=? 5)%nat then Some tags else None
  | None => None
  end.

(** Modelled from the spec: [models/Task.js] is not under [src/].  The
    spec gives the paths of a task, [title] and the owner as required,
    the defaults [todo] and [medium], and creation and update
    timestamps.  The document Mongoose builds from a [doc] made of the
    keys the chains read, for the id, the time and the owner given;
    [None] when a cast or a validator of the schema throws. *)
Definition cast_document (id : ObjectId) (now : Z) (owner : ObjectId)
    (doc : task_body) : option Task :=
  match b_title doc with
  | Some title =>
      if truthy title then
        match cast_dueDate (b_dueDate doc),
              match b_tags doc with Some v => cast_tags v | None => Some [] end with
        | Some dueDate, Some tags =>
            Some {| t_id := id; t_user := owner; t_title := title;
                    t_description := b_description doc;
                    t_status := default "todo" (b_status doc);
                    t_priority := default "medium" (b_priority doc);
                    t_dueDate := dueDate; t_tags := tags;
                    t_createdAt := now; t_updatedAt := now |}
        | _, _ => None
        end
      else None
  | None => None
  end.

(** [Task.create({ ...req.body, user: req.user._id })]: the key [user]
    of the body is overwritten by [owner].  A document whose [_id] is
    taken is refused by the unique index; [None] is an operation that
    throws. *)
Definition Task_create (now : Z) (owner : ObjectId) (doc : task_body)
    (s : store) : option (Task * store) :=
  match match b_other doc with
        | [] => cast_document (next_id s) now owner doc
        | _ :: _ => Mongoose_document (next_id s) now owner doc
        end with
  | Some t =>
      if existsb (fun t' => (t_id t' =? t_id t)%nat) (tasks s) then None
      else Some (t, {| users := users s; tasks := tasks s ++ [t];
                       next_id := S (Nat.max (next_id s) (t_id t)) |})
  | None => None
  end.

(** [router.post('/')] *)
Definition post_task (now : Z) (me : ObjectId) (body : task_body) (s : store)
  : outcome * store :=
  match post_task_validators body with
  | (_ :: _) as errors => (Respond 400 (ErrorsJson errors), s)
  | [] =>
      match Task_create now me (post_task_sanitize body) s with
      | Some (task, s') => (Respond 201 (TaskJson task), s')
      | None => (Respond 500 (ErrorJson "Failed to create task."), s)
      end
  end.

(** The filter [{ _id: id, user: owner }], its [_id] cast. *)
Definition owned_by (id owner : ObjectId) (t : Task) : bool :=
  (t_id t =? id)%nat && (t_user t =? owner)%nat.

(** The first document of the collection the filter selects. *)
Definition find_task (id owner : ObjectId) (s : store) : option Task :=
  List.find (owned_by id owner) (tasks s).

(** [Task.findOne({ _id: id, user: owner })]: [None] is the CastError
    for an [id] that is no ObjectId, [Some None] the result [null]. *)
Definition Task_findOne (id : string) (owner : ObjectId) (s : store)
  : option (option Task) :=
  match castObjectId id with
  | Some _id => Some (find_task _id owner s)
  | None => None
  end.

Definition not_found : outcome := Respond 404 (ErrorJson "Task not found.").

(** [router.get('/:id')]; [id] is [req.params.id]. *)
Definition get_task (me : ObjectId) (id : string) (s : store) : outcome * store :=
  match Task_findOne id me s with
  | None => (Respond 500 (ErrorJson "Failed to fetch task."), s)
  | Some None => (not_found, s)
  | Some (Some task) => (Respond 200 (TaskJson task), s)
  end.

(** An update document after the cast: the paths it sets. *)
Record update_doc : Type := {
  set_title : option string;
  set_description : option string;
  set_status : option string;
  set_priority : option string;
  set_dueDate : option Z;
  set_tags : option (list string);
  set_user : option ObjectId
}.

(** The cast of an update document made of the keys the chains read and
    [user], which Mongoose takes as a [$set] of these paths; [None] when
    a value does not cast or, [runValidators] being set, the validator
    of [tags] refuses. *)
Definition cast_update (upd : task_body) : option update_doc :=
  match cast_dueDate (b_dueDate upd),
        match b_tags upd with
        | Some v => match cast_tags v with Some l => Some (Some l) | None => None end
        | None => Some None
        end,
        match b_user upd with
        | Some id => match castObjectId id with Some _id => Some (Some _id) | None => None end
        | None => Some None
        end with
  | Some dueDate, Some tags, Some user =>
      Some {| set_title := b_title upd; set_description := b_description upd;
              set_status := b_status upd; set_priority := b_priority upd;
              set_dueDate := dueDate; set_tags := tags; set_user := user |}
  | _, _, _ => None
  end.

(** The update applied to a task: every path it has is set ([$set]),
    the others are kept; the update timestamp moves. *)
Definition apply_update (now : Z) (upd : update_doc) (t : Task) : Task :=
  {| t_id := t_id t;
     t_user := default (t_user t) (set_user upd);
     t_title := default (t_title t) (set_title upd);
     t_description :=
       match set_description upd with Some d => Some d | None => t_description t end;
     t_status := default (t_status t) (set_status upd);
     t_priority := default (t_priority t) (set_priority upd);
     t_dueDate :=
       match set_dueDate upd with Some d => Some d | None => t_dueDate t end;
     t_tags := default (t_tags t) (set_tags upd);
     t_createdAt := t_createdAt t;
     t_updatedAt := now |}.

(** What Mongoose makes of the update document [req.body]: [None] when
    it throws before the query is sent. *)
Definition castUpdate (now : Z) (upd : task_body) : option (Task -> option Task) :=
  match b_other upd with
  | [] =>
      match cast_update upd with
      | Some u => Some (fun t => Some (apply_update now u t))
      | None => None
      end
  | _ :: _ => Mongoose_update now upd
  end.

(** Find-and-modify on a collection: the first document the filter
    selects is replaced; the result is the new document. *)
Fixpoint update_first (sel : Task -> bool) (f : Task -> Task) (l : list Task)
  : option Task * list Task :=
  match l with
  | [] => (None, [])
  | t :: l' =>
      if sel t then (Some (f t), f t :: l')
      else let '(r, l'') := update_first sel f l' in (r, t :: l'')
  end.

Fixpoint remove_first (sel : Task -> bool) (l : list Task)
  : option Task * list Task :=
  match l with
  | [] => (None, [])
  | t :: l' =>
      if sel t then (Some t, l')
      else let '(r, l'') := remove_first sel l' in (r, t :: l'')
  end.

Definition with_tasks (s : store) (l : list Task) : store :=
  {| users := users s; tasks := l; next_id := next_id s |}.

(** [Task.findOneAndUpdate({ _id, user }, update, { new: true,
    runValidators: true })].  [None] is an operation that throws: the
    cast of the filter or of the update, an update the database refuses
    on the selected document, as one that would change [_id]. *)
Definition Task_findOneAndUpdate (now : Z) (id : string) (owner : ObjectId)
    (upd : task_body) (s : store) : option (option Task * store) :=
  match castObjectId id, castUpdate now upd with
  | Some _id, Some f =>
      match find_task _id owner s with
      | None => Some (None, s)
      | Some t =>
          match f t with
          | Some t' =>
              if (t_id t' =? t_id t)%nat then
                Some (Some t',
                      with_tasks s
                        (update_first (owned_by _id owner) (fun _ => t') (tasks s)).2)
              else None
          | None => None
          end
      end
  | _, _ => None
  end.

(** [Task.findOneAndDelete({ _id, user })] *)
Definition Task_findOneAndDelete (id : string) (owner : ObjectId) (s : store)
  : option (option Task * store) :=
  match castObjectId id with
  | Some _id =>
      let '(r, l) := remove_first (owned_by _id owner) (tasks s) in
      Some (r, with_tasks s l)
  | None => None
  end.

(** [router.put('/:id')] *)
Definition put_task (now : Z) (me : ObjectId) (id : string) (body : task_body)
    (s : store) : outcome * store :=
  match put_task_validators body with
  | (_ :: _) as errors => (Respond 400 (ErrorsJson errors), s)
  | [] =>
      match Task_findOneAndUpdate now id me (put_task_sanitize body) s with
      | None => (Respond 500 (ErrorJson "Failed to update task."), s)
      | Some (None, _) => (not_found, s)
      | Some (Some task, s') => (Respond 200 (TaskJson task), s')
      end
  end.

(** [router.delete('/:id')] *)
Definition delete_task (me : ObjectId) (id : string) (s : store)
  : outcome * store :=
  match Task_findOneAndDelete id me s with
  | None => (Respond 500 (ErrorJson "Failed to delete task."), s)
  | Some (None, _) => (not_found, s)
  | Some (Some _, s') => (Respond 200 (MessageJson "Task deleted successfully."), s')
  end.

(** **** Listing *)

(** The chains of [router.get('/')]; [trim()] on [search] has no check. *)
Definition get_tasks_validators (q : list_query) : list field_error :=
  optional (q_status q) (fun v =>
    check (JS.isIn statuses v) "status" "Invalid value")
  ++ optional (q_priority q) (fun v =>
       check (JS.isIn priorities v) "priority" "Invalid value")
  ++ optional (q_page q) (fun v =>
       check (JS.isInt 1 None v) "page" "Invalid value")
  ++ optional (q_limit q) (fun v =>
       check (JS.isInt 1 (Some 100%Z) v) "limit" "Invalid value")
  ++ optional (q_sortBy q) (fun v =>
       check (JS.isIn ["createdAt"; "dueDate"; "priority"; "title"] v)
         "sortBy" "Invalid value")
  ++ optional (q_order q) (fun v =>
       check (JS.isIn ["asc"; "desc"] v) "order" "Invalid value").

(** The query filter the handler builds: [user] always, [status] and
    [priority] when given, and the search pattern, which stands for the
    three [$or] branches on [title], [description] and [tags]. *)
Record task_filter : Type := {
  f_user : ObjectId;
  f_status : option string;
  f_priority : option string;
  f_search : option string
}.

(** [if (v) filter.k = v]: an empty string is not set. *)
Definition if_set (v : option string) : option string :=
  match v with
  | Some x => if truthy x then Some x else None
  | None => None
  end.

(** Lines 26 to 35: building the filter evaluates
    [new RegExp(search, 'i')], which throws on a pattern it cannot parse. *)
Definition build_filter (me : ObjectId) (q : list_query)
  : js_error + task_filter :=
  let search := if_set (JS.trim <$> q_search q) in
  let f := {| f_user := me; f_status := if_set (q_status q);
              f_priority := if_set (q_priority q); f_search := search |} in
  match search with
  | Some pattern =>
      if RegExp_valid pattern then inr f else inl (SyntaxError pattern)
  | None => inr f
  end.

Definition eq_if_set (want : option string) (have : string) : bool :=
  match want with Some w => String.eqb have w | None => true end.

(** A task against the filter, [m] being the compiled search pattern. *)
Definition matches_filter (m : option (string -> bool)) (f : task_filter)
    (t : Task) : bool :=
  (t_user t =? f_user f)%nat
  && eq_if_set (f_status f) (t_status t)
  && eq_if_set (f_priority f) (t_priority t)
  && match m with
     | None => true
     | Some test =>
         test (t_title t)
         || match t_description t with Some d => test d | None => false end
         || existsb test (t_tags t)
     end.

(** The database compiles the pattern; [None] is a query it rejects. *)
Definition compile_filter (f : task_filter) : option (option (string -> bool)) :=
  match f_search f with
  | None => Some None
  | Some pattern =>
      match regex_compile pattern with
      | Some test => Some (Some test)
      | None => None
      end
  end.

(** Values of the paths a sort can name, in the cross-type order of the
    database: missing, then strings, then ObjectIds, then dates. *)
Inductive sort_key : Type :=
| KNull
| KStr (v : string)
| KId (v : ObjectId)
| KDate (v : Z).

Definition key_rank (k : sort_key) : nat :=
  match k with KNull => 0 | KStr _ => 1 | KId _ => 2 | KDate _ => 3 end.

Definition key_leb (a b : sort_key) : bool :=
  match a, b with
  | KStr x, KStr y => String.leb x y
  | KId x, KId y => (x <=? y)%nat
  | KDate x, KDate y => (x <=? y)%Z
  | _, _ => (key_rank a <=? key_rank b)%nat
  end.

(** The least (ascending sort) or greatest (descending) element of an
    array path; an empty array sorts as missing. *)
Definition array_key (asc : bool) (l : list string) : sort_key :=
  match l with
  | [] => KNull
  | x :: l' =>
      KStr (fold_left (fun acc y =>
              if asc then (if String.leb y acc then y else acc)
              else (if String.leb acc y then y else acc)) l' x)
  end.

Definition field_key (asc : bool) (name : string) (t : Task) : sort_key :=
  if String.eqb name "createdAt" then KDate (t_createdAt t)
  else if String.eqb name "updatedAt" then KDate (t_updatedAt t)
  else if String.eqb name "dueDate" then
    match t_dueDate t with Some d => KDate d | None => KNull end
  else if String.eqb name "priority" then KStr (t_priority t)
  else if String.eqb name "status" then KStr (t_status t)
  else if String.eqb name "title" then KStr (t_title t)
  else if String.eqb name "description" then
    match t_description t with Some d => KStr d | None => KNull end
  else if String.eqb name "tags" then array_key asc (t_tags t)
  else if String.eqb name "_id" then KId (t_id t)
  else if String.eqb name "user" then KId (t_user t)
  else KNull.

Fixpoint insert_sorted (le : Task -> Task -> bool) (x : Task) (l : list Task)
  : list Task :=
  match l with
  | [] => [x]
  | y :: l' => if le x y then x :: l else y :: insert_sorted le x l'
  end.

(** [.sort({ [sortBy]: sortOrder })]: documents with equal keys stay in
    insertion order. *)
Definition sort_tasks (sortBy : string) (sortOrder : Z) (l : list Task)
  : list Task :=
  let asc := (0 <? sortOrder)%Z in
  let le x y :=
    if asc then key_leb (field_key asc sortBy x) (field_key asc sortBy y)
    else key_leb (field_key asc sortBy y) (field_key asc sortBy x) in
  fold_right (insert_sorted le) [] l.

(** [.limit(n)]: zero is no limit, a negative number counts as its
    absolute value. *)
Definition apply_limit (n : Z) (l : list Task) : list Task :=
  if (n =? 0)%Z then l else take (Z.to_nat (Z.abs n)) l.

(** The documents of the collection the filter selects. *)
Definition hits (m : option (string -> bool)) (f : task_filter) (s : store)
  : list Task :=
  filter (fun t => matches_filter m f t = true) (tasks s).

(** [Task.countDocuments(filter)] *)
Definition Task_countDocuments (f : task_filter) (s : store) : option nat :=
  match compile_filter f with
  | Some m => Some (length (hits m f s))
  | None => None
  end.

(** [Task.find(filter).sort(..).skip(..).limit(..)]; a negative skip is
    an error of the database. *)
Definition Task_find (f : task_filter) (sortBy : string) (sortOrder : Z)
    (skip limit : Z) (s : store) : option (list Task) :=
  match compile_filter f with
  | Some m =>
      if (skip <? 0)%Z then None
      else
        Some (apply_limit limit
                (drop (Z.to_nat skip) (sort_tasks sortBy sortOrder (hits m f s))))
  | None => None
  end.

(** The defaults of the destructuring of [req.query], and
    [order === 'asc' ? 1 : -1]. *)
Definition page_of (q : list_query) : Z := default 1%Z (q_page q).
Definition limit_of (q : list_query) : Z := default 10%Z (q_limit q).
Definition sortBy_of (q : list_query) : string := default "createdAt" (q_sortBy q).
Definition sortOrder_of (q : list_query) : Z :=
  if String.eqb (default "desc" (q_order q)) "asc" then 1%Z else (-1)%Z.

(** [router.get('/')].  The handler reads [req.query] and never reads
    [validationResult(req)]. *)
Definition get_tasks (me : ObjectId) (q : list_query) (s : store)
  : outcome * store :=
  let page := page_of q in
  let limit := limit_of q in
  let sortBy := sortBy_of q in
  match build_filter me q with
  | inl e => (Uncaught e, s)
  | inr f =>
      let sortOrder := sortOrder_of q in
      match Task_countDocuments f s,
            Task_find f sortBy sortOrder ((page - 1) * limit)%Z limit s with
      | Some total, Some found =>
          (Respond 200
             (TasksJson found
                {| pg_total := total; pg_page := page;
                   pg_pages := JS.Math_ceil_div (Z.of_nat total) limit;
                   pg_limit := limit |}), s)
      | _, _ => (Respond 500 (ErrorJson "Failed to fetch tasks."), s)
      end
  end.

(** **** Statistics *)

(** [Task.aggregate([{ $match: { user } }, { $group: { _id: '$path',
    count: { $sum: 1 } } }])]: [tasks_of] is the [$match] stage; the
    [$group] stage gives one pair per value the path takes among the
    user's tasks, in order of first occurrence. *)
Definition tasks_of (owner : ObjectId) (s : store) : list Task :=
  filter (fun t => t_user t = owner) (tasks s).

Definition Task_aggregate (path : Task -> string) (owner : ObjectId) (s : store)
  : list (string * nat) :=
  let mine := tasks_of owner s in
  map (fun k => (k, length (filter (fun t => path t = k) mine)))
      (remove_dups (map path mine)).

(** [summary[_id] = count; summary.total += count] *)
Definition add_status (summary : gmap string nat) (group : string * nat)
  : gmap string nat :=
  let '(id, count) := group in
  let summary1 := <[id := count]> summary in
  <["total" := (summary1 !!! "total") + count]> summary1.

(** [priority[_id] = count] *)
Definition add_priority (priority : gmap string nat) (group : string * nat)
  : gmap string nat :=
  let '(id, count) := group in <[id := count]> priority.

Definition summary0 : gmap string nat :=
  <["todo" := 0]> (<["in-progress" := 0]> (<["done" := 0]> (<["total" := 0]> ∅))).

Definition priority0 : gmap string nat :=
  <["low" := 0]> (<["medium" := 0]> (<["high" := 0]> ∅)).

(** [router.get('/stats/summary')] *)
Definition get_stats (me : ObjectId) (s : store) : outcome * store :=
  let stats := Task_aggregate t_status me s in
  let priorityStats := Task_aggregate t_priority me s in
  let summary := fold_left add_status stats summary0 in
  let priority := fold_left add_priority priorityStats priority0 in
  (Respond 200 (StatsJson summary priority), s).

(** *** [backend/routes/auth.js] and [backend/routes/users.js] *)

(** A document as a query returns it when the path [password] is not
    asked for: the handlers that need the hash add [select('+password')]. *)
Definition select_default (u : User) : User :=
  {| u_id := u_id u; u_name := u_name u; u_email := u_email u;
     u_password := None; u_bio := u_bio u |}.

Definition has_email (email : string) (u : User) : bool :=
  String.eqb (u_email u) email.

Definition has_id (id : ObjectId) (u : User) : bool := (u_id u =? id)%nat.

(** [User.findOne({ email })] and the same with [.select('+password')]. *)
Definition User_findOne (email : string) (s : store) : option User :=
  select_default <$> List.find (has_email email) (users s).

Definition User_findOne_password (email : string) (s : store) : option User :=
  List.find (has_email email) (users s).

(** [User.findById(id)] and the same with [.select('+password')]. *)
Definition User_findById (id : ObjectId) (s : store) : option User :=
  select_default <$> List.find (has_id id) (users s).

Definition User_findById_password (id : ObjectId) (s : store) : option User :=
  List.find (has_id id) (users s).

(** Modelled from the spec: [models/User.js] is not under [src/].  The
    spec's [create] hashes the password with a salted one-way function,
    persists the record and returns the user without the hash. *)
Definition User_create (salt name email password : string) (s : store)
  : User * store :=
  let u := {| u_id := next_id s; u_name := name; u_email := email;
              u_password := Some (bcrypt_hash salt password); u_bio := "" |} in
  (select_default u,
   {| users := users s ++ [u]; tasks := tasks s; next_id := S (next_id s) |}).

(** Modelled from the spec: [user.comparePassword] of [models/User.js],
    the spec's [verifyPassword]: the plaintext against the stored hash.
    [None] is the exception raised when the document carries no hash. *)
Definition comparePassword (u : User) (candidate : string) : option bool :=
  match u_password u with
  | Some h => Some (bcrypt_compare candidate h)
  | None => None
  end.

Fixpoint replace_user (id : ObjectId) (f : User -> User) (l : list User)
  : list User :=
  match l with
  | [] => []
  | u :: l' => if has_id id u then f u :: l' else u :: replace_user id f l'
  end.

(** Modelled from the spec: [user.password = newPassword; user.save()]
    goes through the hook of [models/User.js]; the spec's
    [changePassword] re-hashes and persists the new plaintext. *)
Definition User_save_password (salt : string) (id : ObjectId)
    (newPassword : string) (s : store) : store :=
  {| users := replace_user id (fun u =>
                {| u_id := u_id u; u_name := u_name u; u_email := u_email u;
                   u_password := Some (bcrypt_hash salt newPassword);
                   u_bio := u_bio u |}) (users s);
     tasks := tasks s; next_id := next_id s |}.

(** [generateToken(id)]: the signed token that carries the id. *)
Definition generateToken (id : ObjectId) : string := jwt_sign id.

(** [sendTokenResponse(user, statusCode, res)] *)
Definition sendTokenResponse (user : User) (statusCode : nat) : outcome :=
  Respond statusCode (AuthJson (generateToken (u_id user)) user).

(** The chains of [router.post('/register')]. *)
Definition register_validators (b : register_body) : list field_error :=
  (let name := JS.trim (default "" (r_name b)) in
   check (JS.notEmpty name) "name" "Name is required"
   ++ check (JS.isLength 2 (Some 50) name) "name" "Name must be 2-50 characters")
  ++ (let email := JS.trim (default "" (r_email b)) in
      check (JS.notEmpty email) "email" "Email is required"
      ++ check (isEmail email) "email" "Please provide a valid email")
  ++ (let password := default "" (r_password b) in
      check (JS.notEmpty password) "password" "Password is required"
      ++ check (JS.isLength 6 None password) "password"
           "Password must be at least 6 characters"
      ++ check (JS.matches_digit password) "password"
           "Password must contain at least one number").

(** The value of [req.body.email] after [trim()] and [normalizeEmail()]. *)
Definition sanitized_email (raw : option string) : string :=
  normalizeEmail (JS.trim (default "" raw)).

(** [router.post('/register')]; [salt] is the salt bcrypt draws. *)
Definition post_register (salt : string) (body : register_body) (s : store)
  : outcome * store :=
  match register_validators body with
  | (_ :: _) as errors => (Respond 400 (ErrorsJson errors), s)
  | [] =>
      let name := JS.trim (default "" (r_name body)) in
      let email := sanitized_email (r_email body) in
      let password := default "" (r_password body) in
      match User_findOne email s with
      | Some _ =>
          (Respond 409 (ErrorJson "An account with this email already exists."), s)
      | None =>
          let '(user, s') := User_create salt name email password s in
          (sendTokenResponse user 201, s')
      end
  end.

(** The chains of [router.post('/login')]. *)
Definition login_validators (b : login_body) : list field_error :=
  (let email := JS.trim (default "" (l_email b)) in
   check (JS.notEmpty email) "email" "Email is required"
   ++ check (isEmail email) "email" "Please provide a valid email")
  ++ check (JS.notEmpty (default "" (l_password b))) "password"
       "Password is required".

Definition invalid_login : outcome :=
  Respond 401 (ErrorJson "Invalid email or password.").

(** [router.post('/login')] *)
Definition post_login (body : login_body) (s : store) : outcome * store :=
  match login_validators body with
  | (_ :: _) as errors => (Respond 400 (ErrorsJson errors), s)
  | [] =>
      let email := sanitized_email (l_email body) in
      let password := default "" (l_password body) in
      match User_findOne_password email s with
      | None => (invalid_login, s)
      | Some user =>
          match comparePassword user password with
          | None => (Respond 500 (ErrorJson "Server error during login."), s)
          | Some false => (invalid_login, s)
          | Some true => (sendTokenResponse (select_default user) 200, s)
          end
      end
  end.

(** The chains of [router.put('/password')]. *)
Definition password_validators (b : password_body) : list field_error :=
  check (JS.notEmpty (default "" (p_currentPassword b))) "currentPassword"
    "Current password is required"
  ++ (let newPassword := default "" (p_newPassword b) in
      check (JS.isLength 6 None newPassword) "newPassword"
        "New password must be at least 6 characters"
      ++ check (JS.matches_digit newPassword) "newPassword"
           "New password must contain at least one number").

Definition wrong_current : outcome :=
  Respond 400 (ErrorJson "Current password is incorrect.").

(** [router.put('/password')]; [me] is [req.user._id]. *)
Definition put_password (salt : string) (me : ObjectId) (body : password_body)
    (s : store) : outcome * store :=
  match password_validators body with
  | (_ :: _) as errors => (Respond 400 (ErrorsJson errors), s)
  | [] =>
      let currentPassword := default "" (p_currentPassword body) in
      let newPassword := default "" (p_newPassword body) in
      match User_findById_password me s with
      | None => (Respond 500 (ErrorJson "Failed to change password."), s)
      | Some user =>
          match comparePassword user currentPassword with
          | None => (Respond 500 (ErrorJson "Failed to change password."), s)
          | Some false => (wrong_current, s)
          | Some true =>
              (Respond 200 (MessageJson "Password updated successfully."),
               User_save_password salt me newPassword s)
          end
      end
  end.

(** *** [backend/middleware/auth.js] *)

Definition unauthorized (msg : string) : outcome := Respond 401 (ErrorJson msg).

(** [authHeader.split(' ')[1]] for a header that starts with ["Bearer "]:
    the text up to the next space. *)
Fixpoint until_space (l : list ascii) : list ascii :=
  match l with
  | [] => []
  | c :: l' => if Ascii.eqb c " " then [] else c :: until_space l'
  end.

Definition bearer_token (header : string) : option string :=
  let cs := JS.chars header in
  if JS.starts_with (JS.chars "Bearer ") cs
  then Some (JS.of_chars (until_space (drop 7 cs)))
  else None.

(** [authenticate]: the user a request acts as, or the response that
    ends the request. *)
Definition authenticate (authorization : option string) (s : store)
  : outcome + User :=
  match authorization ≫= bearer_token with
  | None => inl (unauthorized "No token provided. Authorization denied.")
  | Some token =>
      match jwt_verify token with
      | JsonWebTokenError => inl (unauthorized "Invalid token.")
      | TokenExpiredError => inl (unauthorized "Token expired. Please log in again.")
      | Decoded id =>
          match User_findById id s with
          | None => inl (unauthorized "User no longer exists.")
          | Some user => inr user
          end
      end
  end.

(** *** The routes of the three routers *)

Inductive request : Type :=
| PostRegister (salt : string) (body : register_body)
| PostLogin (body : login_body)
| PutPassword (authorization : option string) (salt : string) (body : password_body)
| GetTasks (authorization : option string) (q : list_query)
| PostTask (authorization : option string) (now : Z) (body : task_body)
| GetTask (authorization : option string) (id : string)
| PutTask (authorization : option string) (now : Z) (id : string) (body : task_body)
| DeleteTask (authorization : option string) (id : string)
| GetStats (authorization : option string).

Definition protected (authorization : option string) (s : store)
    (handler : ObjectId -> store -> outcome * store) : outcome * store :=
  match authenticate authorization s with
  | inl denied => (denied, s)
  | inr user => handler (u_id user) s
  end.

Definition handle (r : request) (s : store) : outcome * store :=
  match r with
  | PostRegister salt body => post_register salt body s
  | PostLogin body => post_login body s
  | PutPassword a salt body => protected a s (fun me => put_password salt me body)
  | GetTasks a q => protected a s (fun me => get_tasks me q)
  | PostTask a now body => protected a s (fun me => post_task now me body)
  | GetTask a id => protected a s (fun me => get_task me id)
  | PutTask a now id body => protected a s (fun me => put_task now me id body)
  | DeleteTask a id => protected a s (fun me => delete_task me id)
  | GetStats a => protected a s get_stats
  end.

(** The stores the API can be in: the empty one and what requests make of it. *)
Inductive reachable : store -> Prop :=
| reachable_empty : reachable empty_store
| reachable_handle r s : reachable s -> reachable (handle r s).2.

(** The invariant of the [tasks] collection: ids are distinct and below
    the counter. *)
Record tasks_ok (s : store) : Prop := {
  ids_distinct : NoDup (map t_id (tasks s));
  ids_below : Forall (fun t => t_id t < next_id s) (tasks s)
}.

(** Status and priority of every task are values of their enumerations. *)
Definition enums_ok (s : store) : Prop :=
  Forall (fun t => t_status t ∈ statuses ∧ t_priority t ∈ priorities) (tasks s).




(** A body made of task fields whose values Mongoose and the schema
    accept on an update: a due date [Date] parses, tags that are an
    array of at most five different strings. *)
Record put_stores (b : task_body) : Prop := {
  stores_no_other : b_other b = [];
  stores_no_user : b_user b = None;
  stores_dueDate : forall d, b_dueDate b = Some d -> is_Some (Date_parse d);
  stores_tags : forall v, b_tags b = Some v ->
                          exists tags, v = strings tags /\ NoDup tags
                                       /\ length tags <= 5
}.

End Handlers.

(** ** Requests used in the statements *)

(** A body whose only key is [user]. *)
Definition only_user (other : string) : task_body :=
  {| b_title := None; b_description := None; b_status := None;
     b_priority := None; b_dueDate := None; b_tags := None;
     b_user := Some other; b_other := [] |}.

(** A body whose only key is [title]. *)
Definition only_title (title : string) : task_body :=
  {| b_title := Some title; b_description := None; b_status := None;
     b_priority := None; b_dueDate := None; b_tags := None; b_user := None;
     b_other := [] |}.

(** A body whose only key is [status]. *)
Definition only_status (status : string) : task_body :=
  {| b_title := None; b_description := None; b_status := Some status;
     b_priority := None; b_dueDate := None; b_tags := None; b_user := None;
     b_other := [] |}.

(** A body whose only key is [dueDate]. *)
Definition only_dueDate (dueDate : string) : task_body :=
  {| b_title := None; b_description := None; b_status := None;
     b_priority := None; b_dueDate := Some dueDate; b_tags := None;
     b_user := None; b_other := [] |}.

(** A body whose only key is the update operator [op]. *)
Definition only_operator (op : string) (v : json) : task_body :=
  {| b_title := None; b_description := None; b_status := None;
     b_priority := None; b_dueDate := None; b_tags := None; b_user := None;
     b_other := [(op, v)] |}.


(** A body whose only key is [tags], an array of strings. *)
Definition only_tags (tags : list string) : task_body :=
  {| b_title := None; b_description := None; b_status := None;
     b_priority := None; b_dueDate := None; b_tags := Some (strings tags);
     b_user := None; b_other := [] |}.

Definition six_tags : list string := ["a"; "b"; "c"; "d"; "e"; "f"].

(** A body whose only key is [tags], an array that holds an object. *)
Definition object_tags : task_body :=
  {| b_title := None; b_description := None; b_status := None;
     b_priority := None; b_dueDate := None;
     b_tags := Some (JArr [JObj [("a", JNum 1)]]);
     b_user := None; b_other := [] |}.

(** A title and a description. *)
Definition titled_with_description (title description : string) : task_body :=
  {| b_title := Some title; b_description := Some description;
     b_status := None; b_priority := None; b_dueDate := None; b_tags := None;
     b_user := None; b_other := [] |}.

(** A query whose only parameter is [limit]. *)
Definition only_limit (limit : Z) : list_query :=
  {| q_status := None; q_priority := None; q_search := None; q_page := None;
     q_limit := Some limit; q_sortBy := None; q_order := None |}.

(** A query whose only parameter is [search]. *)
Definition only_search (search : string) : list_query :=
  {| q_status := None; q_priority := None; q_search := Some search;
     q_page := None; q_limit := None; q_sortBy := None; q_order := None |}.

(** The query with its [page] parameter set. *)
Definition with_page (p : Z) (q : list_query) : list_query :=
  {| q_status := q_status q; q_priority := q_priority q; q_search := q_search q;
     q_page := Some p; q_limit := q_limit q; q_sortBy := q_sortBy q;
     q_order := q_order q |}.

(** The tasks a list response carries. *)
Definition listed (o : outcome * store) : list Task :=
  match o.1 with
  | Respond _ (TasksJson found _) => found
  | _ => []
  end.

(** No task has the id. *)
Definition absent (id : ObjectId) (s : store) : Prop :=
  forall t, t ∈ tasks s -> t_id t <> id.

(** A task has the id and another owner. *)
Definition owned_by_other (me id : ObjectId) (s : store) : Prop :=
  exists t, t ∈ tasks s /\ t_id t = id /\ t_user t <> me.

(** The number of tasks of [owner] whose [path] is [k]. *)
Definition count_by (path : Task -> string) (owner : ObjectId) (k : string)
    (s : store) : nat :=
  length (filter (fun t => path t = k) (tasks_of owner s)).


(** Ann's registration, and the header that carries her token on the
    sample platform. *)
Definition ann : register_body :=
  {| r_name := Some "Ann"; r_email := Some "ann@x.com";
     r_password := Some "abc123" |}.

Definition ann_token : option string := Some "Bearer j".

Definition ann_login : login_body :=
  {| l_email := Some "ann@x.com"; l_password := Some "abc123" |}.

(** The store after Ann registered (user 0) and created the task
    "Buy milk" (task 1) at time 5, on the sample platform. *)
Definition ann_store : store :=
  (@handle Sample.platform (PostTask ann_token 5 (only_title "Buy milk"))
     (@handle Sample.platform (PostRegister "salt" ann) empty_store).2).2.

(** Two more tasks of Ann. *)
Definition busy_store : store :=
  (@handle Sample.platform (PostTask ann_token 7 (only_title "Call Bob"))
     (@handle Sample.platform (PostTask ann_token 6 (only_title "Pay rent"))
        ann_store).2).2.

(** The filter of a list request of Ann without parameters. *)
Definition all_of_ann : task_filter :=
  {| f_user := 0; f_status := None; f_priority := None; f_search := None |}.



Definition change_password (current new : string) : password_body :=
  {| p_currentPassword := Some current; p_newPassword := Some new |}.

Definition buy_milk : Task :=
  {| t_id := 1; t_user := 0; t_title := "Buy milk"; t_description := None;
     t_status := "todo"; t_priority := "medium"; t_dueDate := None;
     t_tags := []; t_createdAt := 5; t_updatedAt := 5 |}.

(** The ids 1, 2 and 7 as the URL and a body write them. *)
Definition id_1 : string := "000000000000000000000001".
Definition id_2 : string := "000000000000000000000002".
Definition id_7 : string := "000000000000000000000007".

(** The store after Ann registered (user 0) and created the task
    "Buy milk" with the description "soon" (task 1) at time 5. *)
Definition noted_store : store :=
  (@handle Sample.platform
     (PostTask ann_token 5 (titled_with_description "Buy milk" "soon"))
     (@handle Sample.platform (PostRegister "salt" ann) empty_store).2).2.

(** The update document [{ "$rename": { "description": "status" } }]. *)
Definition rename_description : task_body :=
  only_operator "$rename" (JObj [("description", JStr "status")]).

(** The store after Ann sent that update for her task, at time 6. *)
Definition renamed_store : store :=
  (@handle Sample.platform (PutTask ann_token 6 id_1 rename_description)
     noted_store).2.

(** ** Further invariants and orders *)

(** The invariant of the [users] collection: ids are distinct and below
    the counter, emails are distinct, every document has a hash. *)
Record users_ok (s : store) : Prop := {
  user_ids_distinct : NoDup (map u_id (users s));
  user_ids_below : Forall (fun u => u_id u < next_id s) (users s);
  emails_distinct : NoDup (map u_email (users s));
  hashes_present : Forall (fun u => is_Some (u_password u)) (users s)
}.

(** The order [sort_tasks] inserts by: the keys of the path compared in
    the direction of [sortOrder]. *)
Definition sort_le (sortBy : string) (sortOrder : Z) (x y : Task) : bool :=
  let asc := (0 <? sortOrder)%Z in
  if asc then key_leb (field_key asc sortBy x) (field_key asc sortBy y)
  else key_leb (field_key asc sortBy y) (field_key asc sortBy x).

(** Adjacent elements are in order. *)
Fixpoint ordered {A : Type} (le : A -> A -> bool) (l : list A) : Prop :=
  match l with
  | x :: (y :: _) as l' => le x y = true /\ ordered le l'
  | _ => True
  end.


(** ** The client *)

(** *** [TaskModal]: the tag editor and the submitted payload *)

(** The state [tagInput] and [tags] of the modal. *)
Record tag_editor : Type := { ed_tagInput : string; ed_tags : list string }.

(** [s.replace(/,/g, '')] *)
Definition remove_commas (s : string) : string :=
  JS.of_chars (List.filter (fun c => negb (Ascii.eqb c ",")) (JS.chars s)).

(** [tags.includes(val)] *)
Definition includes (val : string) (l : list string) : bool :=
  existsb (String.eqb val) l.

(** [addTag(e)] for a key press with [e.key = key]. *)
Definition addTag (key : string) (ed : tag_editor) : tag_editor :=
  if String.eqb key "Enter" || String.eqb key "," then
    let val := remove_commas (JS.trim (ed_tagInput ed)) in
    {| ed_tagInput := "";
       ed_tags :=
         if truthy val && negb (includes val (ed_tags ed))
            && (length (ed_tags ed) <? 5)%nat
         then ed_tags ed ++ [val]
         else ed_tags ed |}
  else ed.

(** [removeTag(tag)] *)
Definition removeTag (tag : string) (ed : tag_editor) : tag_editor :=
  {| ed_tagInput := ed_tagInput ed;
     ed_tags := List.filter (fun t => negb (String.eqb t tag)) (ed_tags ed) |}.

(** [onChange] of the tag input. *)
Definition setTagInput (value : string) (ed : tag_editor) : tag_editor :=
  {| ed_tagInput := value; ed_tags := ed_tags ed |}.

(** What the user does in the tag editor. *)
Inductive tag_event : Type :=
| TagTyped (value : string)
| TagKey (key : string)
| TagRemoved (tag : string).

Definition tag_step (e : tag_event) (ed : tag_editor) : tag_editor :=
  match e with
  | TagTyped value => setTagInput value ed
  | TagKey key => addTag key ed
  | TagRemoved tag => removeTag tag ed
  end.

(** The editor of a new task: [tags] starts as [task?.tags || []]. *)
Definition new_task_editor : tag_editor := {| ed_tagInput := ""; ed_tags := [] |}.




(** The editor after a sequence of events. *)
Definition run_tags (events : list tag_event) (ed : tag_editor) : tag_editor :=
  fold_left (fun ed e => tag_step e ed) events ed.

(** What the editor keeps of its tags: no repetition, at most five, none
    empty, none with a comma. *)
Record tags_ok (l : list string) : Prop := {
  tags_distinct : NoDup l;
  tags_at_most_5 : length l <= 5;
  tags_not_empty : Forall (fun t => t <> "") l;
  tags_no_comma : Forall (fun t => ","%char ∉ JS.chars t) l
}.

(** *** [RegisterPage]: the strength meter *)

Definition is_upper (c : ascii) : bool :=
  let n := nat_of_ascii c in (65 <=? n)%nat && (n <=? 90)%nat.

Definition is_lower (c : ascii) : bool :=
  let n := nat_of_ascii c in (97 <=? n)%nat && (n <=? 122)%nat.

(** [/[^a-zA-Z0-9]/] *)
Definition is_symbol (c : ascii) : bool :=
  negb (is_lower c || is_upper c || JS.is_digit c).

(** [passwordStrength]: the number of criteria the password meets, zero
    for the empty password. *)
Definition passwordStrength (password : string) : nat :=
  if truthy password then
    length (List.filter (fun b : bool => b)
              [ (6 <=? JS.utf16_length password)%nat;
                JS.matches_digit password;
                existsb is_upper (JS.chars password);
                existsb is_symbol (JS.chars password) ])
  else 0.

(** *** [DashboardPage]: filters, pages and the list request *)

(** The state [filters]; [sortBy] and [order] are [None] when undefined. *)
Record filters : Type := {
  fl_search : string;
  fl_status : string;
  fl_priority : string;
  fl_page : Z;
  fl_limit : Z;
  fl_sortBy : option string;
  fl_order : option string
}.

Definition initial_filters : filters :=
  {| fl_search := ""; fl_status := ""; fl_priority := ""; fl_page := 1;
     fl_limit := 10; fl_sortBy := Some "createdAt"; fl_order := Some "desc" |}.

(** [loadTasks]: the parameters of the list request; empty texts and
    undefined values are left out. *)
Definition loadTasks (f : filters) : list_query :=
  {| q_status := if_set (Some (fl_status f));
     q_priority := if_set (Some (fl_priority f));
     q_search := if_set (Some (fl_search f));
     q_page := Some (fl_page f);
     q_limit := Some (fl_limit f);
     q_sortBy := fl_sortBy f;
     q_order := fl_order f |}.

(** [str.split(sep)] for a separator of one character. *)
Fixpoint split_chars (sep : ascii) (l : list ascii) : list (list ascii) :=
  match l with
  | [] => [[]]
  | c :: l' =>
      match split_chars sep l' with
      | part :: parts =>
          if Ascii.eqb c sep then [] :: part :: parts else (c :: part) :: parts
      | [] => [[c]]
      end
  end.

Definition split (sep : ascii) (s : string) : list string :=
  map JS.of_chars (split_chars sep (JS.chars s)).

(** [handleSearchChange], once the timeout fires: [{ ...f, search: val, page: 1 }]. *)
Definition handleSearchChange (val : string) (f : filters) : filters :=
  {| fl_search := val; fl_status := fl_status f; fl_priority := fl_priority f;
     fl_page := 1; fl_limit := fl_limit f; fl_sortBy := fl_sortBy f;
     fl_order := fl_order f |}.

(** The two keys [handleFilterChange] is called with. *)
Inductive filter_key : Type := KeyStatus | KeyPriority.

(** [handleFilterChange(key, value)]: [{ ...f, [key]: value, page: 1 }]. *)
Definition handleFilterChange (key : filter_key) (value : string) (f : filters)
  : filters :=
  {| fl_search := fl_search f;
     fl_status := match key with KeyStatus => value | KeyPriority => fl_status f end;
     fl_priority := match key with KeyPriority => value | KeyStatus => fl_priority f end;
     fl_page := 1; fl_limit := fl_limit f; fl_sortBy := fl_sortBy f;
     fl_order := fl_order f |}.

(** The sort select: [const [sortBy, order] = e.target.value.split(':')]. *)
Definition handleSortChange (value : string) (f : filters) : filters :=
  let parts := split ":" value in
  {| fl_search := fl_search f; fl_status := fl_status f;
     fl_priority := fl_priority f; fl_page := 1; fl_limit := fl_limit f;
     fl_sortBy := parts !! 0; fl_order := parts !! 1 |}.

(** The [value]s of the options of the three selects. *)
Definition status_options : list string := ["" ; "todo"; "in-progress"; "done"].
Definition priority_options : list string := [""; "low"; "medium"; "high"].
Definition sort_options : list string :=
  ["createdAt:desc"; "createdAt:asc"; "dueDate:asc"; "priority:desc"; "title:asc"].

Definition setPage (p : Z) (f : filters) : filters :=
  {| fl_search := fl_search f; fl_status := fl_status f;
     fl_priority := fl_priority f; fl_page := p; fl_limit := fl_limit f;
     fl_sortBy := fl_sortBy f; fl_order := fl_order f |}.

(** The numbered buttons: [Math.min(5, pages)] of them, from
    [Math.max(1, Math.min(pages - 4, page - 2))]. *)
Definition page_buttons (page pages : Z) : list Z :=
  map (fun i => (Z.max 1 (Z.min (pages - 4) (page - 2)) + Z.of_nat i)%Z)
      (seq 0 (Z.to_nat (Z.min 5 pages))).

(** "Showing [first]–[last] of [total]". *)
Definition showing_first (page limit : Z) : Z := ((page - 1) * limit + 1)%Z.
Definition showing_last (page limit total : Z) : Z := Z.min (page * limit) total.

(** What the user does on the dashboard. *)
Inductive ui_event : Type :=
| SearchTyped (val : string)
| FilterPicked (key : filter_key) (value : string)
| SortPicked (value : string)
| PrevClicked
| NextClicked
| PageClicked (p : Z).

(** The controls offer the event: a select offers its options, the
    pagination is rendered when [pages > 1], the arrows are disabled at
    the ends, the numbered buttons are those of [page_buttons]. *)
Definition offered (page pages : Z) (e : ui_event) : Prop :=
  match e with
  | SearchTyped _ => True
  | FilterPicked KeyStatus value => value ∈ status_options
  | FilterPicked KeyPriority value => value ∈ priority_options
  | SortPicked value => value ∈ sort_options
  | PrevClicked => (1 < pages)%Z /\ ~ (page <= 1)%Z
  | NextClicked => (1 < pages)%Z /\ ~ (page >= pages)%Z
  | PageClicked p => (1 < pages)%Z /\ p ∈ page_buttons page pages
  end.

Definition ui_step (e : ui_event) (f : filters) : filters :=
  match e with
  | SearchTyped val => handleSearchChange val f
  | FilterPicked key value => handleFilterChange key value f
  | SortPicked value => handleSortChange value f
  | PrevClicked => setPage (fl_page f - 1) f
  | NextClicked => setPage (fl_page f + 1) f
  | PageClicked p => setPage p f
  end.

(** The filters the controls can produce. *)
Record filters_ok (f : filters) : Prop := {
  ok_status : fl_status f ∈ status_options;
  ok_priority : fl_priority f ∈ priority_options;
  ok_sort : exists v, v ∈ sort_options
                      /\ fl_sortBy f = split ":" v !! 0
                      /\ fl_order f = split ":" v !! 1;
  ok_limit : fl_limit f = 10%Z;
  ok_page : (1 <= fl_page f)%Z
}.

(** *** [AuthContext]: the session *)

(** The state of the provider and [localStorage]. *)
Record session : Type := {
  se_user : option User;
  se_loading : bool;
  se_token : option string;
  se_storage : gmap string string
}.

(** The initial state: [token] is read from [localStorage]. *)
Definition session_start (storage : gmap string string) : session :=
  {| se_user := None; se_loading := true; se_token := storage !! "token";
     se_storage := storage |}.

(** [initAuth], given what [GET /auth/me] gave: the user, or [None] when
    the call failed.  The call is made when the saved token is truthy. *)
Definition initAuth (me : option User) (se : session) : session :=
  let idle := {| se_user := se_user se; se_loading := false;
                 se_token := se_token se; se_storage := se_storage se |} in
  match se_storage se !! "token" with
  | Some savedToken =>
      if truthy savedToken then
        match me with
        | Some user =>
            {| se_user := Some user; se_loading := false;
               se_token := se_token se; se_storage := se_storage se |}
        | None =>
            {| se_user := se_user se; se_loading := false; se_token := None;
               se_storage := delete "user" (delete "token" (se_storage se)) |}
        end
      else idle
  | None => idle
  end.

(** [register] and [login] after the API answered with [data]. *)
Definition signed_in (token : string) (user : User) (se : session) : session :=
  {| se_user := Some user; se_loading := se_loading se; se_token := Some token;
     se_storage := <["token" := token]> (se_storage se) |}.

(** [logout] *)
Definition logout (se : session) : session :=
  {| se_user := None; se_loading := se_loading se; se_token := None;
     se_storage := delete "user" (delete "token" (se_storage se)) |}.

(** [updateUser] *)
Definition updateUser (user : User) (se : session) : session :=
  {| se_user := Some user; se_loading := se_loading se; se_token := se_token se;
     se_storage := se_storage se |}.

Inductive session_event : Type :=
| InitAuth (me : option User)
| SignedIn (token : string) (user : User)
| LoggedOut
| UserUpdated (user : User).

Definition session_step (e : session_event) (se : session) : session :=
  match e with
  | InitAuth me => initAuth me se
  | SignedIn token user => signed_in token user se
  | LoggedOut => logout se
  | UserUpdated user => updateUser user se
  end.

(** The session after a sequence of events. *)
Definition run_session (events : list session_event) (se : session) : session :=
  fold_left (fun se e => session_step e se) events se.

(** *** What a user sees *)

(** The responses [other] gets from the list, from the reading of a
    task and from the statistics are the same on the two stores. *)
Definition same_view `{Platform} (other : ObjectId) (s s' : store) : Prop :=
  forall q id,
    (get_tasks other q s').1 = (get_tasks other q s).1
    /\ (get_task other id s').1 = (get_task other id s).1
    /\ (get_stats other s').1 = (get_stats other s).1.

(** ** Further requests used in the statements *)

(** The laws of jsonwebtoken the token round trip needs: a signed token
    verifies to its id and has no space in it. *)
Definition jwt_sound `{Platform} : Prop :=
  forall id, jwt_verify (jwt_sign id) = Decoded id
             /\ " "%char ∉ JS.chars (jwt_sign id).

Definition bearer (token : string) : option string :=
  Some ("Bearer " ++ token)%string.

Definition login_with (email password : string) : login_body :=
  {| l_email := Some email; l_password := Some password |}.


(** A second registration under Ann's address, written differently. *)
Definition ann_again : register_body :=
  {| r_name := Some "Ann B"; r_email := Some " ANN@X.COM";
     r_password := Some "xyz789" |}.


(** Two times U+1F600, [A] and [1]. *)
Definition astral_password : string :=
  JS.of_chars (map ascii_of_nat [240; 159; 152; 128; 240; 159; 152; 128; 65; 49]).

(** The tag editor with one tag, and [" home,"] typed. *)
Definition typing_home : tag_editor :=
  {| ed_tagInput := " home,"; ed_tags := ["work"] |}.

(** ** Properties of the handlers *)

Section Properties.

Context `{Platform}.

(** *** Validation chains *)

Lemma check_nil ok f m : check ok f m = [] <-> ok = true.
Proof. destruct ok; simpl; split; congruence. Qed.

Lemma optional_nil {A : Type} (v : option A) chain :
  optional v chain = [] <-> forall x, v = Some x -> chain x = [].
Proof.
  destruct v as [x|]; simpl; split; auto.
  - intros Hx y [= <-]. exact Hx.
  - intros _ y [=].
Qed.

Lemma isIn_elem_of values v : JS.isIn values v = true <-> v ∈ values.
Proof.
  unfold JS.isIn. rewrite existsb_exists. split.
  - intros (x & Hx & Heq). apply String.eqb_eq in Heq. subst.
    by apply list_elem_of_In.
  - intros Hv. exists v. split; [by apply list_elem_of_In | apply String.eqb_refl].
Qed.









(** *** Find-and-modify *)

Lemma update_first_hit sel f l t :
  List.find sel l = Some t ->
  exists l1 l2, l = l1 ++ t :: l2 /\ List.find sel l1 = None
                /\ update_first sel f l = (Some (f t), l1 ++ f t :: l2).
Proof.
  induction l as [|x l IH]; simpl; [done|].
  destruct (sel x) eqn:Hx.
  - intros [= <-]. exists [], l. simpl. by rewrite ?Hx.
  - intros Hl. destruct (IH Hl) as (l1 & l2 & -> & Hl1 & ->).
    exists (x :: l1), l2. simpl. by rewrite Hx.
Qed.

Lemma remove_first_miss sel l :
  List.find sel l = None -> remove_first sel l = (None, l).
Proof.
  induction l as [|t l IH]; simpl; [done|].
  destruct (sel t); [done|]. intros Hl. by rewrite IH.
Qed.

Lemma remove_first_hit sel l t :
  List.find sel l = Some t ->
  exists l1 l2, l = l1 ++ t :: l2 /\ List.find sel l1 = None
                /\ remove_first sel l = (Some t, l1 ++ l2).
Proof.
  induction l as [|x l IH]; simpl; [done|].
  destruct (sel x) eqn:Hx.
  - intros [= <-]. exists [], l. by simpl.
  - intros Hl. destruct (IH Hl) as (l1 & l2 & -> & Hl1 & ->).
    exists (x :: l1), l2. simpl. by rewrite Hx.
Qed.

Lemma find_none_iff {A : Type} (sel : A -> bool) (l : list A) :
  List.find sel l = None <-> forall x, x ∈ l -> sel x = false.
Proof.
  split.
  - intros Hn x Hx. apply list_elem_of_In in Hx. by eapply find_none.
  - intros Hall. induction l as [|a l IH]; simpl; [done|].
    rewrite (Hall a) by left. apply IH. intros x Hx. apply Hall. by right.
Qed.

Lemma find_app_none {A : Type} (sel : A -> bool) (l1 l2 : list A) :
  List.find sel l1 = None -> List.find sel (l1 ++ l2) = List.find sel l2.
Proof.
  induction l1 as [|a l1 IH]; simpl; [done|]. by destruct (sel a).
Qed.

Lemma owned_by_spec id owner t :
  owned_by id owner t = true <-> t_id t = id /\ t_user t = owner.
Proof.
  unfold owned_by. by rewrite andb_true_iff, !Nat.eqb_eq.
Qed.

Lemma find_owned_by id owner l t :
  List.find (owned_by id owner) l = Some t -> t_id t = id /\ t_user t = owner.
Proof.
  intros Hf. apply find_some in Hf as [_ Hf]. by apply owned_by_spec.
Qed.

Lemma Task_findOne_Some id owner s t :
  Task_findOne id owner s = Some (Some t)
  <-> exists _id, castObjectId id = Some _id /\ find_task _id owner s = Some t.
Proof.
  unfold Task_findOne. destruct (castObjectId id) as [_id|]; split.
  - intros [= Hf]. by exists _id.
  - by intros (? & [= <-] & ->).
  - done.
  - by intros (? & [=] & _).
Qed.

(** *** Mongoose's casts *)

Lemma remove_dups_NoDup {A : Type} `{EqDecision A} (l : list A) :
  NoDup l -> remove_dups l = l.
Proof.
  induction 1 as [|x l Hx _ IH]; simpl; [done|].
  destruct (decide_rel _ x l); [done|]. by rewrite IH.
Qed.

Lemma remove_dups_length {A : Type} `{EqDecision A} (l : list A) :
  length (remove_dups l) <= length l.
Proof.
  induction l as [|x l IH]; simpl; [done|].
  destruct (decide_rel _ x l); simpl; lia.
Qed.

Lemma strings_inj l l' : strings l = strings l' -> l = l'.
Proof.
  unfold strings. intros [= Heq]. revert l' Heq.
  induction l as [|x l IH]; intros [|y l']; simpl; try done.
  intros [= -> Heq]. f_equal. by apply IH.
Qed.

Lemma mapM_cast_tag tags : mapM cast_tag (JStr <$> tags) = Some tags.
Proof. by apply mapM_fmap_Some. Qed.

(** An array of at most five strings is cast to the set of its
    elements: to itself when it has no repetition. *)
Lemma cast_tags_strings tags :
  length tags <= 5 -> cast_tags (strings tags) = Some (remove_dups tags).
Proof.
  intros Hlen. unfold cast_tags, strings. rewrite mapM_cast_tag.
  pose proof (remove_dups_length tags).
  destruct (Nat.leb_spec (length (remove_dups tags)) 5); [done|lia].
Qed.


(** *** The invariant of the tasks collection *)

Lemma tasks_ok_empty : tasks_ok empty_store.
Proof. split; simpl; constructor. Qed.

Lemma tasks_ok_users s us n :
  next_id s <= n -> tasks_ok s ->
  tasks_ok {| users := us; tasks := tasks s; next_id := n |}.
Proof.
  intros Hn [Hd Hb]. split; simpl; auto.
  eapply Forall_impl; [exact Hb|]. simpl. intros t Ht. lia.
Qed.

Lemma id_not_taken id (l : list Task) :
  existsb (fun t' => (t_id t' =? id)%nat) l = false -> id ∉ map t_id l.
Proof.
  intros He Hin. apply list_elem_of_fmap in Hin as (t & -> & Ht).
  apply not_true_iff_false in He. apply He, existsb_exists.
  exists t. split; [by apply list_elem_of_In|apply Nat.eqb_refl].
Qed.


(** What a successful creation does to the store. *)
Lemma Task_create_Some now owner doc s t s' :
  Task_create now owner doc s = Some (t, s') ->
  (t_id t ∉ map t_id (tasks s))
  /\ tasks s' = tasks s ++ [t] /\ users s' = users s
  /\ next_id s <= next_id s' /\ t_id t < next_id s'.
Proof.
  unfold Task_create.
  destruct (match b_other doc with [] => _ | _ => _ end) as [t0|]; [|done].
  destruct (existsb _ (tasks s)) eqn:He; [done|]. intros [= <- <-].
  simpl. split; [by apply id_not_taken|]. repeat split; lia.
Qed.

Lemma Task_create_ok now owner doc s t s' :
  tasks_ok s -> Task_create now owner doc s = Some (t, s') -> tasks_ok s'.
Proof.
  intros [Hd Hb] (Hnew & Htasks & _ & Hle & Hlt)%Task_create_Some.
  split; rewrite Htasks.
  - rewrite map_app. simpl. apply NoDup_app. split; [done|]. split.
    + by intros x Hx [->|[]%elem_of_nil]%elem_of_cons.
    + apply NoDup_singleton.
  - apply Forall_app. split.
    + eapply Forall_impl; [exact Hb|]. simpl. intros t0 Ht. lia.
    + by apply Forall_singleton.
Qed.

Lemma post_task_ok now me body s : tasks_ok s -> tasks_ok (post_task now me body s).2.
Proof.
  intros Hok. unfold post_task.
  destruct (post_task_validators body); [|done].
  destruct (Task_create _ _ _ s) as [[t s']|] eqn:Hc; [|done].
  by apply Task_create_ok in Hc.
Qed.

(** What a successful find-and-modify does to the collection. *)
Lemma Task_findOneAndUpdate_Some now id owner upd s t' s' :
  Task_findOneAndUpdate now id owner upd s = Some (Some t', s') ->
  exists _id f t l1 l2,
    castObjectId id = Some _id /\ castUpdate now upd = Some f
    /\ find_task _id owner s = Some t /\ f t = Some t' /\ t_id t' = t_id t
    /\ tasks s = l1 ++ t :: l2 /\ List.find (owned_by _id owner) l1 = None
    /\ s' = with_tasks s (l1 ++ t' :: l2).
Proof.
  unfold Task_findOneAndUpdate.
  destruct (castObjectId id) as [_id|]; [|done].
  destruct (castUpdate now upd) as [f|]; [|done].
  destruct (find_task _id owner s) as [t|] eqn:Hf; [|done].
  destruct (f t) as [t1|] eqn:Hft; [|done].
  destruct (Nat.eqb_spec (t_id t1) (t_id t)) as [Hid|]; [|done].
  intros [= <- <-].
  destruct (update_first_hit _ (fun _ => t1) _ _ Hf) as (l1 & l2 & Hl & Hl1 & Hu).
  exists _id, f, t, l1, l2. by rewrite Hu.
Qed.

Lemma Task_findOneAndUpdate_None now id owner upd s s' :
  Task_findOneAndUpdate now id owner upd s = Some (None, s') -> s' = s.
Proof.
  unfold Task_findOneAndUpdate.
  destruct (castObjectId id) as [_id|]; [|done].
  destruct (castUpdate now upd) as [f|]; [|done].
  destruct (find_task _id owner s) as [t|]; [|by intros [= <-]].
  destruct (f t) as [t1|]; [|done]. by destruct (t_id t1 =? t_id t)%nat.
Qed.

Lemma put_task_ok now me id body s : tasks_ok s -> tasks_ok (put_task now me id body s).2.
Proof.
  intros Hok. unfold put_task.
  destruct (put_task_validators body) as [|e errs]; [|done].
  destruct (Task_findOneAndUpdate _ _ _ _ s) as [[[t'|] s']|] eqn:Hu; try done.
  apply Task_findOneAndUpdate_Some in Hu
    as (_id & f & t & l1 & l2 & _ & _ & _ & _ & Hid & Hl & _ & ->).
  destruct Hok as [Hd Hb]. rewrite Hl in Hd, Hb. split; simpl.
  - rewrite map_app in *. simpl in *. by rewrite Hid.
  - apply Forall_app in Hb as [Hb1 Hb2]. apply Forall_cons in Hb2 as [Hb2 Hb3].
    apply Forall_app. split; [done|]. apply Forall_cons. split; [lia|done].
Qed.

(** What a successful find-and-delete does to the collection. *)
Lemma Task_findOneAndDelete_Some id owner s t s' :
  Task_findOneAndDelete id owner s = Some (Some t, s') ->
  exists _id l1 l2,
    castObjectId id = Some _id /\ find_task _id owner s = Some t
    /\ tasks s = l1 ++ t :: l2 /\ List.find (owned_by _id owner) l1 = None
    /\ s' = with_tasks s (l1 ++ l2).
Proof.
  unfold Task_findOneAndDelete, find_task.
  destruct (castObjectId id) as [_id|]; [|done].
  destruct (List.find (owned_by _id owner) (tasks s)) as [t0|] eqn:Hf.
  - destruct (remove_first_hit _ _ _ Hf) as (l1 & l2 & Hl & Hl1 & ->).
    intros [= <- <-]. by exists _id, l1, l2.
  - by rewrite remove_first_miss.
Qed.

Lemma Task_findOneAndDelete_miss id _id owner s :
  castObjectId id = Some _id -> find_task _id owner s = None ->
  Task_findOneAndDelete id owner s = Some (None, s).
Proof.
  intros Hc Hf. unfold Task_findOneAndDelete, find_task in *. rewrite Hc.
  rewrite remove_first_miss by done. by destruct s.
Qed.

Lemma Task_findOneAndDelete_hit id _id owner s t :
  castObjectId id = Some _id -> find_task _id owner s = Some t ->
  exists l1 l2,
    tasks s = l1 ++ t :: l2 /\ List.find (owned_by _id owner) l1 = None
    /\ Task_findOneAndDelete id owner s = Some (Some t, with_tasks s (l1 ++ l2)).
Proof.
  intros Hc Hf. unfold Task_findOneAndDelete, find_task in *. rewrite Hc.
  destruct (remove_first_hit _ _ _ Hf) as (l1 & l2 & Hl & Hl1 & ->).
  by exists l1, l2.
Qed.

Lemma delete_task_ok me id s : tasks_ok s -> tasks_ok (delete_task me id s).2.
Proof.
  intros Hok. unfold delete_task.
  destruct (Task_findOneAndDelete id me s) as [[[t|] s']|] eqn:Hdel; try done.
  apply Task_findOneAndDelete_Some in Hdel as (_id & l1 & l2 & _ & _ & Hl & _ & ->).
  destruct Hok as [Hd Hb]. rewrite Hl in Hd, Hb. split; simpl.
  - rewrite map_app in *. simpl in Hd.
    apply NoDup_app in Hd as (Hd1 & Hd2 & Hd3). apply NoDup_cons in Hd3 as [Hd3 Hd4].
    apply NoDup_app. split; [done|]. split; [|done].
    intros x Hx Hx'. apply (Hd2 x Hx). by right.
  - apply Forall_app in Hb as [Hb1 Hb2]. apply Forall_cons in Hb2 as [Hb2 Hb3].
    apply Forall_app. by split.
Qed.

Lemma protected_ok a s handler :
  tasks_ok s -> (forall me, tasks_ok (handler me s).2) ->
  tasks_ok (protected a s handler).2.
Proof.
  intros Hok Hh. unfold protected. destruct (authenticate a s); simpl; auto.
Qed.

Lemma handle_ok r s : tasks_ok s -> tasks_ok (handle r s).2.
Proof.
  intros Hok. destruct r; simpl; try (apply protected_ok; [done|intros me]).
  - unfold post_register. destruct (register_validators body); [|done].
    destruct (User_findOne _ s); [done|]. simpl. apply tasks_ok_users; [lia|done].
  - unfold post_login. destruct (login_validators body); [|done].
    destruct (User_findOne_password _ s) as [u|]; [|done].
    by destruct (comparePassword u _) as [[]|].
  - unfold put_password. destruct (password_validators body); [|done].
    destruct (User_findById_password me s) as [u|]; [|done].
    destruct (comparePassword u _) as [[]|]; try done.
    simpl. apply tasks_ok_users; [simpl; lia|done].
  - unfold get_tasks. destruct (build_filter me q); [done|].
    destruct (Task_countDocuments _ s); [|done]. by destruct (Task_find _ _ _ _ _ s).
  - by apply post_task_ok.
  - unfold get_task. by destruct (Task_findOne id me s) as [[]|].
  - by apply put_task_ok.
  - by apply delete_task_ok.
  - done.
Qed.

Lemma reachable_tasks_ok s : reachable s -> tasks_ok s.
Proof.
  induction 1 as [|r s _ IH]; [apply tasks_ok_empty | by apply handle_ok].
Qed.

(** *** Ownership *)

Lemma NoDup_ids_middle (l1 l2 : list Task) t x :
  NoDup (map t_id (l1 ++ t :: l2)) -> x ∈ l1 ++ l2 -> t_id x <> t_id t.
Proof.
  rewrite map_app. simpl. intros Hd Hx Heq.
  apply NoDup_app in Hd as (_ & Hd2 & Hd3). apply NoDup_cons in Hd3 as [Hd3 _].
  apply elem_of_app in Hx as [Hx|Hx].
  - apply (Hd2 (t_id x)); [by apply list_elem_of_fmap_2|]. rewrite Heq. by left.
  - apply Hd3. rewrite <- Heq. by apply list_elem_of_fmap_2.
Qed.

Lemma hidden_findOne s me id :
  tasks_ok s -> absent id s \/ owned_by_other me id s ->
  find_task id me s = None.
Proof.
  intros Hok Hcase. apply find_none_iff. intros x Hx.
  apply not_true_is_false. rewrite owned_by_spec. intros [Hid Hu].
  destruct Hcase as [Habs|(t & Ht & Hid' & Hu')]; [by apply (Habs x)|].
  apply list_elem_of_split in Ht as (l1 & l2 & Hl).
  destruct Hok as [Hd _]. rewrite Hl in Hd, Hx.
  apply elem_of_app in Hx as [Hx|Hx].
  - eapply NoDup_ids_middle in Hd; [|apply elem_of_app; left; exact Hx]. congruence.
  - apply elem_of_cons in Hx as [->|Hx]; [done|].
    eapply NoDup_ids_middle in Hd; [|apply elem_of_app; right; exact Hx]. congruence.
Qed.

(** After a find-and-delete no task has the id and the owner. *)
Lemma deleted_task_gone s me id _id :
  tasks_ok s -> castObjectId id = Some _id ->
  find_task _id me (delete_task me id s).2 = None.
Proof.
  intros Hok Hc. unfold delete_task.
  destruct (find_task _id me s) as [t|] eqn:Hf.
  - destruct (Task_findOneAndDelete_hit _ _ _ _ _ Hc Hf) as (l1 & l2 & Hl & _ & ->).
    simpl. apply find_owned_by in Hf as [Hid _].
    apply find_none_iff. intros x Hx. apply not_true_is_false.
    rewrite owned_by_spec. intros [Hid' _].
    destruct Hok as [Hd _]. rewrite Hl in Hd.
    eapply NoDup_ids_middle in Hd; [|exact Hx]. congruence.
  - by rewrite (Task_findOneAndDelete_miss _ _ _ _ Hc Hf).
Qed.

Lemma delete_task_twice s me id :
  tasks_ok s -> is_Some (castObjectId id) ->
  (delete_task me id (delete_task me id s).2).1 = not_found.
Proof.
  intros Hok [_id Hc].
  pose proof (deleted_task_gone s me id _id Hok Hc) as Hgone.
  unfold delete_task at 1.
  by rewrite (Task_findOneAndDelete_miss _ _ _ _ Hc Hgone).
Qed.

(** C1.  The owner reference of a task is meant never to
    change, whatever the body of an update carries.  The handler of
    PUT hands [req.body] to the update as it is: a body with a key
    [user] moves the task to the user it names, who then reads it
    while the former owner gets 404. *)
Theorem put_task_reassigns_owner now s me id to other t :
  tasks_ok s -> Task_findOne id me s = Some (Some t) ->
  castObjectId to = Some other -> other <> me ->
  exists t' s',
    put_task now me id (only_user to) s = (Respond 200 (TaskJson t'), s')
    /\ t_id t' = t_id t /\ t_user t = me /\ t_user t' = other
    /\ get_task other id s' = (Respond 200 (TaskJson t'), s')
    /\ get_task me id s' = (not_found, s').
Proof.
  intros Hok (_id & Hc & Hf)%Task_findOne_Some Hto Hne.
  unfold put_task, Task_findOneAndUpdate, castUpdate, cast_update. simpl.
  rewrite Hc, Hto, Hf. simpl. rewrite Nat.eqb_refl.
  unfold find_task in Hf.
  destruct (update_first_hit _ (fun _ => apply_update now
              {| set_title := None; set_description := None; set_status := None;
                 set_priority := None; set_dueDate := None; set_tags := None;
                 set_user := Some other |} t) _ _ Hf) as (l1 & l2 & Hl & Hl1 & ->).
  destruct (find_owned_by _ _ _ _ Hf) as [Hid Hu].
  eexists _, _. split; [reflexivity|]. simpl.
  do 3 (split; [done|]).
  destruct Hok as [Hd _]. rewrite Hl in Hd.
  assert (forall x o, x ∈ l1 ++ l2 -> owned_by _id o x = false) as Hrest.
  { intros x o Hx. apply not_true_is_false. rewrite owned_by_spec. intros [Hx' _].
    eapply NoDup_ids_middle in Hd; [|exact Hx]. congruence. }
  unfold get_task, Task_findOne, find_task. rewrite Hc. simpl. split.
  - rewrite find_app_none.
    + simpl. unfold owned_by at 1. simpl. by rewrite Hid, !Nat.eqb_refl.
    + apply find_none_iff. intros x Hx. apply Hrest, elem_of_app. by left.
  - replace (List.find (owned_by _id me) _) with (@None Task); [done|].
    symmetry. apply find_none_iff. intros x Hx.
    apply elem_of_app in Hx as [Hx|Hx]; [apply Hrest, elem_of_app; by left|].
    apply elem_of_cons in Hx as [->|Hx]; [|apply Hrest, elem_of_app; by right].
    unfold owned_by. simpl. apply andb_false_iff. right. by apply Nat.eqb_neq.
Qed.

(** C2.  On a reachable store, for an id that is a well-formed ObjectId
    and that no task has or that a task of another owner has, GET and
    DELETE answer the same 404 and leave the store as it is, and PUT
    answers that 404 when its body passes the validation chains and the
    cast of the update, and the 500 of its [catch] when the cast
    throws; for an id that is no ObjectId the three routes answer the
    500 of their [catch]; PUT answers the 400 of the chains for a body
    they refuse, whatever the id; a second DELETE of the same
    well-formed id answers 404. *)
Theorem task_hidden_unless_owner s me id :
  reachable s ->
  (forall _id, castObjectId id = Some _id ->
     absent _id s \/ owned_by_other me _id s ->
     get_task me id s = (not_found, s)
     /\ delete_task me id s = (not_found, s)
     /\ (forall now body, put_task_validators body = [] ->
           is_Some (castUpdate now (put_task_sanitize body)) ->
           put_task now me id body s = (not_found, s))
     /\ (forall now body, put_task_validators body = [] ->
           castUpdate now (put_task_sanitize body) = None ->
           put_task now me id body s
           = (Respond 500 (ErrorJson "Failed to update task."), s)))
  /\ (castObjectId id = None ->
      get_task me id s = (Respond 500 (ErrorJson "Failed to fetch task."), s)
      /\ delete_task me id s = (Respond 500 (ErrorJson "Failed to delete task."), s)
      /\ (forall now body, put_task_validators body = [] ->
            put_task now me id body s
            = (Respond 500 (ErrorJson "Failed to update task."), s)))
  /\ (forall now body e errs, put_task_validators body = e :: errs ->
        put_task now me id body s = (Respond 400 (ErrorsJson (e :: errs)), s))
  /\ (forall me' id', is_Some (castObjectId id') ->
        (delete_task me' id' (delete_task me' id' s).2).1 = not_found).
Proof.
  intros Hr. apply reachable_tasks_ok in Hr. split; [|split; [|split]].
  - intros _id Hc Hcase.
    pose proof (hidden_findOne _ _ _ Hr Hcase) as Hnone.
    split; [|split; [|split]].
    + unfold get_task, Task_findOne. by rewrite Hc, Hnone.
    + unfold delete_task. by rewrite (Task_findOneAndDelete_miss _ _ _ _ Hc Hnone).
    + intros now body Hv [f Hf]. unfold put_task, Task_findOneAndUpdate.
      by rewrite Hv, Hc, Hf, Hnone.
    + intros now body Hv Hf. unfold put_task, Task_findOneAndUpdate.
      by rewrite Hv, Hc, Hf.
  - intros Hc. split; [|split].
    + unfold get_task, Task_findOne. by rewrite Hc.
    + unfold delete_task, Task_findOneAndDelete. by rewrite Hc.
    + intros now body Hv. unfold put_task, Task_findOneAndUpdate.
      by rewrite Hv, Hc.
  - intros now body e errs Hv. unfold put_task. by rewrite Hv.
  - intros me' id' Hc. by apply delete_task_twice.
Qed.

(** *** Updating *)

Lemma cast_update_stores body :
  put_stores body ->
  exists tags,
    cast_update (put_task_sanitize body)
    = Some {| set_title := JS.trim <$> b_title body;
              set_description := JS.trim <$> b_description body;
              set_status := b_status body; set_priority := b_priority body;
              set_dueDate := b_dueDate body ≫= Date_parse; set_tags := tags;
              set_user := None |}
    /\ (forall l, b_tags body = Some (strings l) -> tags = Some l)
    /\ (b_tags body = None -> tags = None).
Proof.
  intros [_ Huser Hdue Htags]. unfold cast_update, cast_dueDate. simpl.
  rewrite Huser.
  assert (match b_dueDate body with
          | Some d => match Date_parse d with
                      | Some date => Some (Some date)
                      | None => None
                      end
          | None => Some None
          end = Some (b_dueDate body ≫= Date_parse)) as ->.
  { destruct (b_dueDate body) as [d|]; simpl; [|done].
    by destruct (Hdue d eq_refl) as [date ->]. }
  destruct (b_tags body) as [v|] eqn:Hv.
  - destruct (Htags v eq_refl) as (l & -> & Hnd & Hlen).
    rewrite cast_tags_strings, remove_dups_NoDup by done.
    eexists. split; [reflexivity|]. split; [|done].
    intros l' Heq. assert (strings l = strings l') as ->%strings_inj by congruence.
    done.
  - eexists. split; [reflexivity|]. by split.
Qed.

(** C9.  An update by the owner with a body the chains accept, made of
    task fields whose values the store accepts, returns the updated
    record, which replaces the task in place: a path the body does not
    have keeps its value; [status], [priority] and [tags] take the value
    sent, [dueDate] the date it denotes, and [title] and [description]
    the value sent with the white space at its ends removed. *)
Theorem put_task_patches now s me id body t :
  put_task_validators body = [] -> put_stores body ->
  Task_findOne id me s = Some (Some t) ->
  exists t' l1 l2,
    put_task now me id body s
    = (Respond 200 (TaskJson t'), with_tasks s (l1 ++ t' :: l2))
    /\ tasks s = l1 ++ t :: l2
    /\ t_title t' = default (t_title t) (JS.trim <$> b_title body)
    /\ t_description t'
       = match b_description body with
         | Some d => Some (JS.trim d)
         | None => t_description t
         end
    /\ t_status t' = default (t_status t) (b_status body)
    /\ t_priority t' = default (t_priority t) (b_priority body)
    /\ t_dueDate t'
       = match b_dueDate body with
         | Some d => Date_parse d
         | None => t_dueDate t
         end
    /\ (forall tags, b_tags body = Some (strings tags) -> t_tags t' = tags)
    /\ (b_tags body = None -> t_tags t' = t_tags t)
    /\ t_id t' = t_id t /\ t_user t' = t_user t
    /\ t_createdAt t' = t_createdAt t.
Proof.
  intros Hv Hst (_id & Hc & Hf)%Task_findOne_Some.
  destruct (cast_update_stores body Hst) as (tags & Hcast & Ht1 & Ht2).
  unfold put_task, Task_findOneAndUpdate, castUpdate. rewrite Hv. simpl.
  rewrite (stores_no_other _ Hst), Hc, Hcast, Hf. simpl. rewrite Nat.eqb_refl.
  unfold find_task in Hf.
  destruct (update_first_hit _ (fun _ => apply_update now
              {| set_title := JS.trim <$> b_title body;
                 set_description := JS.trim <$> b_description body;
                 set_status := b_status body; set_priority := b_priority body;
                 set_dueDate := b_dueDate body ≫= Date_parse; set_tags := tags;
                 set_user := None |} t)
              _ _ Hf) as (l1 & l2 & Hl & _ & ->).
  eexists _, l1, l2. split; [reflexivity|]. split; [done|]. simpl.
  split; [done|]. split; [by destruct (b_description body)|].
  split; [done|]. split; [done|]. split.
  { destruct (b_dueDate body) as [d|] eqn:Hd; simpl; [|done].
    destruct (stores_dueDate _ Hst d Hd) as [z Hz]. by rewrite Hz. }
  split; [by intros l ->%Ht1|]. split; [by intros ->%Ht2|done].
Qed.

(** *** Creating *)




(** *** Listing *)

(** C5.  A list request with [limit=1000] breaks the chain
    on [limit], and the handler, which does not read the result of the
    chains, runs the query and answers 200 with that limit. *)
Theorem get_tasks_skips_validation me s :
  get_tasks_validators (only_limit 1000) <> []
  /\ exists found total pages,
       get_tasks me (only_limit 1000) s
       = (Respond 200
            (TasksJson found {| pg_total := total; pg_page := 1;
                                pg_pages := pages; pg_limit := 1000 |}), s).
Proof.
  split; [done|]. unfold get_tasks. simpl. by eexists _, _, _.
Qed.

(** **** Pages *)

Lemma insert_sorted_perm le x l : insert_sorted le x l ≡ₚ x :: l.
Proof.
  induction l as [|y l IH]; simpl; [done|].
  destruct (le x y); [done|]. rewrite IH. apply Permutation_swap.
Qed.

Lemma sort_tasks_perm sortBy sortOrder l : sort_tasks sortBy sortOrder l ≡ₚ l.
Proof.
  unfold sort_tasks. induction l as [|x l IH]; simpl; [done|].
  rewrite insert_sorted_perm. by rewrite IH.
Qed.

(** Cutting a list into [k] slices of [n] elements loses nothing when
    [k * n] covers it. *)
Lemma slices_concat {A : Type} (n k : nat) (l : list A) :
  0 < n -> length l <= k * n ->
  concat (map (fun i => take n (drop (i * n) l)) (seq 0 k)) = l.
Proof.
  intros Hn. revert l. induction k as [|k IH]; intros l Hl.
  - simpl in *. destruct l; [done|simpl in Hl; lia].
  - simpl. rewrite <- seq_shift, map_map.
    transitivity (take n l ++ drop n l); [|apply take_drop]. f_equal.
    rewrite <- (IH (drop n l)) by (rewrite length_drop; lia).
    f_equal. apply map_ext. intros i. rewrite drop_drop. done.
Qed.

Lemma ceil_div_spec (total : nat) (limit : Z) :
  (1 <= limit)%Z ->
  exists pages : nat,
    JS.Math_ceil_div (Z.of_nat total) limit = Some (Z.of_nat pages)
    /\ (Z.of_nat total <= Z.of_nat pages * limit < Z.of_nat total + limit)%Z.
Proof.
  intros Hl. unfold JS.Math_ceil_div.
  destruct (Z.eqb_spec limit 0) as [->|_]; [lia|].
  pose proof (Z.div_mod (- Z.of_nat total) limit ltac:(lia)) as Hdm.
  pose proof (Z.mod_pos_bound (- Z.of_nat total) limit ltac:(lia)) as Hr.
  set (d := (- Z.of_nat total / limit)%Z) in *.
  assert (d <= 0)%Z as Hd by nia.
  exists (Z.to_nat (- d)). rewrite Z2Nat.id by lia. split; [done|]. nia.
Qed.

Lemma build_filter_with_page me p q :
  build_filter me (with_page p q) = build_filter me q.
Proof. done. Qed.

(** The response to page [p] of a query whose filter is accepted. *)
Lemma get_tasks_page me q s f m (p : nat) :
  build_filter me q = inr f -> compile_filter f = Some m ->
  (1 <= limit_of q)%Z -> 1 <= p ->
  get_tasks me (with_page (Z.of_nat p) q) s
  = (Respond 200
       (TasksJson
          (take (Z.to_nat (limit_of q))
             (drop ((p - 1) * Z.to_nat (limit_of q))
                (sort_tasks (sortBy_of q) (sortOrder_of q) (hits m f s))))
          {| pg_total := length (hits m f s); pg_page := Z.of_nat p;
             pg_pages := JS.Math_ceil_div (Z.of_nat (length (hits m f s))) (limit_of q);
             pg_limit := limit_of q |}), s).
Proof.
  intros Hf Hm Hl Hp. unfold get_tasks.
  rewrite build_filter_with_page, Hf.
  unfold Task_countDocuments, Task_find. rewrite Hm.
  change (limit_of (with_page (Z.of_nat p) q)) with (limit_of q).
  change (page_of (with_page (Z.of_nat p) q)) with (Z.of_nat p).
  change (sortBy_of (with_page (Z.of_nat p) q)) with (sortBy_of q).
  change (sortOrder_of (with_page (Z.of_nat p) q)) with (sortOrder_of q).
  destruct (Z.ltb_spec ((Z.of_nat p - 1) * limit_of q) 0) as [Hneg|_]; [nia|].
  unfold apply_limit. destruct (Z.eqb_spec (limit_of q) 0) as [Hz|_]; [lia|].
  rewrite Z.abs_eq by lia.
  replace (Z.to_nat ((Z.of_nat p - 1) * limit_of q))
    with ((p - 1) * Z.to_nat (limit_of q)); [done|].
  rewrite Z2Nat.inj_mul by lia. f_equal. lia.
Qed.

(** C6.  For an owner and a filter the query accepts, with
    a page size of at least 1: every page reports as total the number
    of tasks the filter selects and as pages the ceiling of total over
    page size; the pages 1 to [pages] together hold each selected task
    once, and their sizes add up to the total. *)
Theorem get_tasks_pagination me q s f m :
  build_filter me q = inr f -> compile_filter f = Some m ->
  (1 <= limit_of q)%Z ->
  exists pages : nat,
    (Z.of_nat (length (hits m f s)) <= Z.of_nat pages * limit_of q
       < Z.of_nat (length (hits m f s)) + limit_of q)%Z
    /\ (forall p : nat, 1 <= p ->
          exists found,
            get_tasks me (with_page (Z.of_nat p) q) s
            = (Respond 200
                 (TasksJson found
                    {| pg_total := length (hits m f s); pg_page := Z.of_nat p;
                       pg_pages := Some (Z.of_nat pages);
                       pg_limit := limit_of q |}), s))
    /\ concat (map (fun p => listed (get_tasks me (with_page (Z.of_nat p) q) s))
                 (seq 1 pages)) ≡ₚ hits m f s
    /\ sum_list (map (fun p => length (listed (get_tasks me (with_page (Z.of_nat p) q) s)))
                   (seq 1 pages)) = length (hits m f s).
Proof.
  intros Hf Hm Hl.
  destruct (ceil_div_spec (length (hits m f s)) (limit_of q) Hl) as (pages & Hc & Hb).
  exists pages. split; [done|].
  set (sorted := sort_tasks (sortBy_of q) (sortOrder_of q) (hits m f s)).
  set (n := Z.to_nat (limit_of q)).
  assert (map (fun p => listed (get_tasks me (with_page (Z.of_nat p) q) s)) (seq 1 pages)
          = map (fun i => take n (drop (i * n) sorted)) (seq 0 pages)) as Hpages.
  { rewrite <- seq_shift, map_map. apply map_ext_in. intros i _.
    rewrite (get_tasks_page _ _ _ f m) by (done || lia).
    unfold listed. simpl. by rewrite Nat.sub_0_r. }
  assert (concat (map (fun p => listed (get_tasks me (with_page (Z.of_nat p) q) s))
                    (seq 1 pages)) = sorted) as Hall.
  { rewrite Hpages. apply slices_concat; [lia|].
    unfold sorted. rewrite (Permutation_length (sort_tasks_perm _ _ _)). nia. }
  split; [|split].
  - intros p Hp. eexists. rewrite (get_tasks_page _ _ _ f m) by done.
    by rewrite Hc.
  - rewrite Hall. apply sort_tasks_perm.
  - transitivity (length sorted);
      [|unfold sorted; apply Permutation_length, sort_tasks_perm].
    rewrite <- Hall.
    rewrite <- (map_map (fun p => listed (get_tasks me (with_page (Z.of_nat p) q) s))
                  length).
    generalize (map (fun p => listed (get_tasks me (with_page (Z.of_nat p) q) s))
                  (seq 1 pages)).
    intros ls. induction ls as [|x ls IH]; simpl; [done|].
    rewrite length_app. by rewrite IH.
Qed.

(** *** Statistics *)

Lemma statuses_NoDup : NoDup statuses.
Proof. compute_done. Qed.

Lemma priorities_NoDup : NoDup priorities.
Proof. compute_done. Qed.

Lemma sum_list_zero {A : Type} (ks : list A) : sum_list (map (fun _ => 0) ks) = 0.
Proof. induction ks; simpl; auto. Qed.

Lemma sum_list_indicator (ks : list string) (v : string) :
  NoDup ks -> v ∈ ks ->
  sum_list (map (fun k => if decide (v = k) then 1 else 0) ks) = 1.
Proof.
  induction 1 as [|k ks Hk Hd IH]; intros Hv; [by apply elem_of_nil in Hv|].
  simpl. destruct (decide (v = k)) as [->|Hne].
  - f_equal. clear IH Hv. induction ks as [|k' ks IH]; simpl; [done|].
    apply not_elem_of_cons in Hk as [Hk1 Hk2]. apply NoDup_cons in Hd as [_ Hd].
    destruct (decide (k = k')); [done|]. by apply IH.
  - apply elem_of_cons in Hv as [->|Hv]; [done|]. by apply IH.
Qed.

(** Counting a list by the values of a path counts each element once. *)
Lemma count_by_path (path : Task -> string) (ks : list string) (l : list Task) :
  NoDup ks -> (forall t, t ∈ l -> path t ∈ ks) ->
  sum_list (map (fun k => length (filter (fun t => path t = k) l)) ks) = length l.
Proof.
  intros Hd. induction l as [|x l IH]; intros Hin.
  - simpl. apply sum_list_zero.
  - change (length (x :: l)) with (1 + length l).
    rewrite <- IH by (intros t Ht; apply Hin; by right).
    rewrite <- (sum_list_indicator ks (path x) Hd) by (apply Hin; by left).
    clear. induction ks as [|k ks IH]; simpl; [done|].
    rewrite filter_cons. destruct (decide (path x = k)); simpl; lia.
Qed.

Lemma filter_path_none (path : Task -> string) (k : string) (l : list Task) :
  k ∉ map path l -> filter (fun t => path t = k) l = [].
Proof.
  intros Hk. induction l as [|x l IH]; [done|].
  simpl in Hk. apply not_elem_of_cons in Hk as [Hk1 Hk2].
  rewrite filter_cons. destruct (decide (path x = k)); [congruence|]. by apply IH.
Qed.

(** The loop over the status groups: [total] accumulates the counts,
    each group sets its key, the other keys stay. *)
Lemma fold_add_status (groups : list (string * nat)) (m : gmap string nat) (T : nat) :
  NoDup groups.*1 -> "total" ∉ groups.*1 -> m !! "total" = Some T ->
  fold_left add_status groups m !! "total" = Some (T + sum_list groups.*2)
  /\ (forall k c, (k, c) ∈ groups -> fold_left add_status groups m !! k = Some c)
  /\ (forall k, k ∉ groups.*1 -> k <> "total" ->
        fold_left add_status groups m !! k = m !! k).
Proof.
  revert m T. induction groups as [|[id c] groups IH]; intros m T Hd Ht Hm.
  - simpl. rewrite Nat.add_0_r. split; [done|]. split; [|done].
    intros k c Hk. by apply elem_of_nil in Hk.
  - simpl in *. apply NoDup_cons in Hd as [Hid Hd].
    apply not_elem_of_cons in Ht as [Hne%not_eq_sym Ht].
    assert ((<[id:=c]> m : gmap string nat) !!! "total" = T) as Htot.
    { rewrite lookup_total_insert_ne by done. by rewrite lookup_total_alt, Hm. }
    rewrite Htot.
    destruct (IH (<["total":=T + c]> (<[id:=c]> m)) (T + c) Hd Ht) as (H1 & H2 & H3).
    { apply lookup_insert_eq. }
    split; [|split].
    + rewrite H1. f_equal. apply eq_sym, Nat.add_assoc.
    + intros k c' [[= -> ->]|Hk]%elem_of_cons.
      * rewrite H3 by done. rewrite lookup_insert_ne by done. apply lookup_insert_eq.
      * by apply H2.
    + intros k [Hk1 Hk2]%not_elem_of_cons Hk3.
      rewrite H3 by done. by rewrite !lookup_insert_ne.
Qed.

Lemma fold_add_priority (groups : list (string * nat)) (m : gmap string nat) :
  NoDup groups.*1 ->
  (forall k c, (k, c) ∈ groups -> fold_left add_priority groups m !! k = Some c)
  /\ (forall k, k ∉ groups.*1 -> fold_left add_priority groups m !! k = m !! k).
Proof.
  revert m. induction groups as [|[id c] groups IH]; intros m Hd.
  - simpl. split; [|done]. intros k c Hk. by apply elem_of_nil in Hk.
  - simpl in *. apply NoDup_cons in Hd as [Hid Hd].
    destruct (IH (<[id:=c]> m) Hd) as (H2 & H3). split.
    + intros k c' [[= -> ->]|Hk]%elem_of_cons.
      * rewrite H3 by done. apply lookup_insert_eq.
      * by apply H2.
    + intros k [Hk1 Hk2]%not_elem_of_cons.
      rewrite H3 by done. by rewrite lookup_insert_ne.
Qed.

Lemma Task_aggregate_keys path owner s :
  (Task_aggregate path owner s).*1 = remove_dups (map path (tasks_of owner s)).
Proof.
  unfold Task_aggregate. rewrite <- list_fmap_compose.
  apply list_fmap_id.
Qed.

Lemma Task_aggregate_counts path owner s :
  (Task_aggregate path owner s).*2
  = map (fun k => count_by path owner k s)
        (remove_dups (map path (tasks_of owner s))).
Proof.
  unfold Task_aggregate. by rewrite <- list_fmap_compose.
Qed.

Lemma Task_aggregate_sum path owner s :
  sum_list (Task_aggregate path owner s).*2 = length (tasks_of owner s).
Proof.
  rewrite Task_aggregate_counts. unfold count_by.
  apply count_by_path; [apply NoDup_remove_dups|].
  intros t Ht. apply elem_of_remove_dups. by apply list_elem_of_fmap_2.
Qed.

Lemma Task_aggregate_elem path owner s k :
  k ∈ map path (tasks_of owner s) ->
  (k, count_by path owner k s) ∈ Task_aggregate path owner s.
Proof.
  intros Hk. unfold Task_aggregate.
  apply (list_elem_of_fmap_2 (fun k => (k, count_by path owner k s))).
  by apply elem_of_remove_dups.
Qed.

Lemma count_by_absent path owner k s :
  k ∉ map path (tasks_of owner s) -> count_by path owner k s = 0.
Proof. intros Hk. unfold count_by. by rewrite filter_path_none. Qed.

(** The key of a status is in the summary with the count of that status. *)
Lemma summary_lookup s me k :
  "total" ∉ map t_status (tasks_of me s) -> k ∈ statuses ->
  fold_left add_status (Task_aggregate t_status me s) summary0 !! k
  = Some (count_by t_status me k s).
Proof.
  intros Ht Hk.
  destruct (fold_add_status (Task_aggregate t_status me s) summary0 0)
    as (_ & H2 & H3).
  - rewrite Task_aggregate_keys. apply NoDup_remove_dups.
  - rewrite Task_aggregate_keys. by rewrite elem_of_remove_dups.
  - done.
  - destruct (decide (k ∈ map t_status (tasks_of me s))) as [Hin|Hout].
    + by apply H2, Task_aggregate_elem.
    + rewrite H3.
      * rewrite count_by_absent by done.
        unfold statuses in Hk. set_unfold. by destruct Hk as [->|[->|[->|[]]]].
      * rewrite Task_aggregate_keys. by rewrite elem_of_remove_dups.
      * intros ->. unfold statuses in Hk. set_unfold.
        by destruct Hk as [?|[?|[?|[]]]].
Qed.

Lemma priority_lookup s me k :
  k ∈ priorities ->
  fold_left add_priority (Task_aggregate t_priority me s) priority0 !! k
  = Some (count_by t_priority me k s).
Proof.
  intros Hk.
  destruct (fold_add_priority (Task_aggregate t_priority me s) priority0)
    as (H2 & H3).
  - rewrite Task_aggregate_keys. apply NoDup_remove_dups.
  - destruct (decide (k ∈ map t_priority (tasks_of me s))) as [Hin|Hout].
    + by apply H2, Task_aggregate_elem.
    + rewrite H3.
      * rewrite count_by_absent by done.
        unfold priorities in Hk. set_unfold. by destruct Hk as [->|[->|[->|[]]]].
      * rewrite Task_aggregate_keys. by rewrite elem_of_remove_dups.
Qed.

Lemma tasks_of_enums s me t :
  enums_ok s -> t ∈ tasks_of me s ->
  t_status t ∈ statuses /\ t_priority t ∈ priorities.
Proof.
  intros He Ht. apply list_elem_of_filter in Ht as [_ Ht].
  unfold enums_ok in He. rewrite Forall_forall in He. by apply He.
Qed.

Lemma hits_unfiltered me s :
  hits None {| f_user := me; f_status := None; f_priority := None;
               f_search := None |} s = tasks_of me s.
Proof.
  apply list_filter_iff. intros t. unfold matches_filter. simpl.
  rewrite !andb_true_r. apply Nat.eqb_eq.
Qed.

(** On a store whose tasks have a status and a priority of the
    enumerations, the summary has a count under each of [todo],
    [in-progress], [done] and [total], the priorities a count under each
    of [low], [medium], [high], zero where the user has no such task;
    the three status counts and the three priority counts both add up
    to the number of the user's tasks, which is [total] and the total of
    the list request without parameters. *)
Lemma get_stats_counts_enums s me :
  enums_ok s ->
  exists summary priority : gmap string nat,
    get_stats me s = (Respond 200 (StatsJson summary priority), s)
    /\ summary !! "todo" = Some (count_by t_status me "todo" s)
    /\ summary !! "in-progress" = Some (count_by t_status me "in-progress" s)
    /\ summary !! "done" = Some (count_by t_status me "done" s)
    /\ summary !! "total" = Some (length (tasks_of me s))
    /\ priority !! "low" = Some (count_by t_priority me "low" s)
    /\ priority !! "medium" = Some (count_by t_priority me "medium" s)
    /\ priority !! "high" = Some (count_by t_priority me "high" s)
    /\ count_by t_status me "todo" s + count_by t_status me "in-progress" s
       + count_by t_status me "done" s = length (tasks_of me s)
    /\ count_by t_priority me "low" s + count_by t_priority me "medium" s
       + count_by t_priority me "high" s = length (tasks_of me s)
    /\ exists found pages,
         get_tasks me no_query s
         = (Respond 200
              (TasksJson found
                 {| pg_total := length (tasks_of me s); pg_page := 1;
                    pg_pages := pages; pg_limit := 10 |}), s).
Proof.
  intros Hok.
  assert ("total" ∉ map t_status (tasks_of me s)) as Htotal.
  { intros (t & Heq & Ht)%list_elem_of_fmap.
    destruct (tasks_of_enums _ _ _ Hok Ht) as [Hs _]. rewrite <- Heq in Hs.
    unfold statuses in Hs. set_unfold. by destruct Hs as [?|[?|[?|[]]]]. }
  eexists _, _. split; [reflexivity|].
  rewrite !summary_lookup by (done || (unfold statuses; set_solver)).
  rewrite !priority_lookup by (unfold priorities; set_solver).
  do 3 (split; [done|]). split.
  { destruct (fold_add_status (Task_aggregate t_status me s) summary0 0)
      as (H1 & _ & _).
    - rewrite Task_aggregate_keys. apply NoDup_remove_dups.
    - rewrite Task_aggregate_keys. by rewrite elem_of_remove_dups.
    - done.
    - rewrite H1. by rewrite Task_aggregate_sum. }
  do 3 (split; [done|]). split; [|split].
  - pose proof (count_by_path t_status statuses (tasks_of me s)) as Hsum.
    unfold count_by. simpl in Hsum. rewrite <- Hsum; [lia| |].
    + apply statuses_NoDup.
    + intros t Ht. by destruct (tasks_of_enums _ _ _ Hok Ht).
  - pose proof (count_by_path t_priority priorities (tasks_of me s)) as Hsum.
    unfold count_by. simpl in Hsum. rewrite <- Hsum; [lia| |].
    + apply priorities_NoDup.
    + intros t Ht. by destruct (tasks_of_enums _ _ _ Hok Ht).
  - unfold get_tasks. simpl. unfold Task_countDocuments, Task_find. simpl.
    rewrite hits_unfiltered. by eexists _, _.
Qed.

(** The counts of the keys of [ks] add up to less than the length when
    an element has a key outside. *)
Lemma sum_list_indicator_le (ks : list string) (v : string) :
  NoDup ks -> sum_list (map (fun k => if decide (v = k) then 1 else 0) ks) <= 1.
Proof.
  intros Hd. destruct (decide (v ∈ ks)) as [Hin|Hout].
  - by rewrite sum_list_indicator.
  - clear Hd. induction ks as [|k ks IH]; simpl; [lia|].
    apply not_elem_of_cons in Hout as [Hne Hout].
    destruct (decide (v = k)); [done|]. simpl. by apply IH.
Qed.

Lemma sum_list_indicator_out (ks : list string) (v : string) :
  v ∉ ks -> sum_list (map (fun k => if decide (v = k) then 1 else 0) ks) = 0.
Proof.
  induction ks as [|k ks IH]; simpl; [done|].
  intros [Hne Hout]%not_elem_of_cons.
  destruct (decide (v = k)); [done|]. simpl. by apply IH.
Qed.

Lemma count_by_path_cons (path : Task -> string) (ks : list string) x l :
  sum_list (map (fun k => length (filter (fun t => path t = k) (x :: l))) ks)
  = sum_list (map (fun k => if decide (path x = k) then 1 else 0) ks)
    + sum_list (map (fun k => length (filter (fun t => path t = k) l)) ks).
Proof.
  induction ks as [|k ks IH]; simpl; [done|].
  rewrite filter_cons. destruct (decide (path x = k)); simpl; lia.
Qed.

Lemma count_by_path_le (path : Task -> string) (ks : list string) (l : list Task) :
  NoDup ks ->
  sum_list (map (fun k => length (filter (fun t => path t = k) l)) ks) <= length l.
Proof.
  intros Hd. induction l as [|x l IH].
  - simpl. by rewrite sum_list_zero.
  - rewrite count_by_path_cons. pose proof (sum_list_indicator_le ks (path x) Hd).
    simpl. lia.
Qed.

Lemma count_by_path_lt (path : Task -> string) (ks : list string) (l : list Task) t :
  NoDup ks -> t ∈ l -> path t ∉ ks ->
  sum_list (map (fun k => length (filter (fun t => path t = k) l)) ks) < length l.
Proof.
  intros Hd Ht Hout. induction l as [|x l IH]; [by apply elem_of_nil in Ht|].
  rewrite count_by_path_cons. simpl.
  apply elem_of_cons in Ht as [<-|Ht].
  - rewrite sum_list_indicator_out by done.
    pose proof (count_by_path_le path ks l Hd). lia.
  - pose proof (sum_list_indicator_le ks (path x) Hd). specialize (IH Ht). lia.
Qed.

(** C7.  The counts of the three statuses are meant to add up to
    [total], the number of the user's tasks.  The handler of PUT hands
    [req.body] to the update as it is: whenever that update is answered
    200 with a task of the caller whose status is outside the
    enumeration, as an update operator the chains do not read can leave
    it, the statistics count the task under [total] and under none of
    [todo], [in-progress] and [done], whose counts add up to less than
    [total]. *)
Theorem get_stats_counts_after_update now me id body s t' s' :
  put_task now me id body s = (Respond 200 (TaskJson t'), s') ->
  t_user t' = me -> t_status t' ∉ statuses ->
  (forall x, x ∈ tasks s' -> t_status x <> "total") ->
  exists summary priority : gmap string nat,
    get_stats me s' = (Respond 200 (StatsJson summary priority), s')
    /\ summary !! "todo" = Some (count_by t_status me "todo" s')
    /\ summary !! "in-progress" = Some (count_by t_status me "in-progress" s')
    /\ summary !! "done" = Some (count_by t_status me "done" s')
    /\ summary !! "total" = Some (length (tasks_of me s'))
    /\ count_by t_status me "todo" s' + count_by t_status me "in-progress" s'
       + count_by t_status me "done" s' < length (tasks_of me s').
Proof.
  intros Hput Hu Hout Hnot.
  assert (t' ∈ tasks_of me s') as Hin.
  { unfold put_task in Hput.
    destruct (put_task_validators body); [|done].
    destruct (Task_findOneAndUpdate _ _ _ _ s) as [[[t1|] s1]|] eqn:Hupd; try done.
    injection Hput as <- <-.
    apply Task_findOneAndUpdate_Some in Hupd
      as (_id & f & t & l1 & l2 & _ & _ & _ & _ & _ & _ & _ & ->).
    unfold tasks_of. simpl. apply list_elem_of_filter. split; [done|].
    apply elem_of_app. right. by left. }
  assert ("total" ∉ map t_status (tasks_of me s')) as Htotal.
  { intros (x & Heq & Hx)%list_elem_of_fmap.
    apply list_elem_of_filter in Hx as [_ Hx]. by apply (Hnot x). }
  eexists _, _. split; [reflexivity|].
  rewrite !summary_lookup by (done || (unfold statuses; set_solver)).
  do 3 (split; [done|]). split.
  { destruct (fold_add_status (Task_aggregate t_status me s') summary0 0)
      as (H1 & _ & _).
    - rewrite Task_aggregate_keys. apply NoDup_remove_dups.
    - rewrite Task_aggregate_keys. by rewrite elem_of_remove_dups.
    - done.
    - rewrite H1. by rewrite Task_aggregate_sum. }
  pose proof (count_by_path_lt t_status statuses (tasks_of me s') t'
                statuses_NoDup Hin Hout) as Hsum.
  unfold count_by. simpl in Hsum. lia.
Qed.

(** **** The search pattern *)

(** C10.  A search text is compiled as a pattern while the
    filter is built, before the [try] block of the handler: when
    [new RegExp] rejects it, the exception leaves the handler and no
    response is produced, neither a result nor the 500 of the [catch]. *)
Theorem get_tasks_bad_pattern_uncaught me q search s :
  q_search q = Some search ->
  truthy (JS.trim search) = true -> RegExp_valid (JS.trim search) = false ->
  get_tasks me q s = (Uncaught (SyntaxError (JS.trim search)), s)
  /\ status_of (get_tasks me q s).1 = None.
Proof.
  intros Hq Ht Hbad.
  assert (get_tasks me q s = (Uncaught (SyntaxError (JS.trim search)), s)) as Hg.
  { unfold get_tasks, build_filter. rewrite Hq. simpl. rewrite Ht. by rewrite Hbad. }
  by rewrite Hg.
Qed.

(** *** Accounts *)

Lemma find_replace_user id f l u :
  u_id (f u) = u_id u ->
  List.find (has_id id) l = Some u ->
  List.find (has_id id) (replace_user id f l) = Some (f u).
Proof.
  intros Hid. induction l as [|x l IH]; simpl; [done|].
  destruct (has_id id x) eqn:Hx.
  - intros [= ->]. simpl. unfold has_id in *. by rewrite Hid, Hx.
  - intros Hl. simpl. rewrite Hx. by apply IH.
Qed.

(** C3.  A registration the chains accept, for an email no
    user has, answers 201 with a user that carries no password hash;
    a login with the same email and password then answers 200 with the
    same user. *)
Theorem register_then_login salt body s :
  bcrypt_sound -> register_validators body = [] ->
  User_findOne (sanitized_email (r_email body)) s = None ->
  exists user s',
    post_register salt body s
    = (Respond 201 (AuthJson (generateToken (u_id user)) user), s')
    /\ u_password user = None
    /\ post_login {| l_email := r_email body; l_password := r_password body |} s'
       = (Respond 200 (AuthJson (generateToken (u_id user)) user), s').
Proof.
  intros Hsound Hv Hfresh. unfold post_register. rewrite Hv, Hfresh. simpl.
  eexists _, _. split; [reflexivity|]. split; [done|].
  unfold register_validators in Hv. rewrite !app_nil in Hv.
  destruct Hv as (_ & (He1 & He2) & Hp1 & _ & _).
  unfold post_login, login_validators. simpl. rewrite He1, He2, Hp1. simpl.
  unfold User_findOne_password. simpl.
  unfold User_findOne in Hfresh. apply fmap_None in Hfresh.
  rewrite find_app_none by done. simpl.
  unfold has_email at 1. simpl. rewrite String.eqb_refl.
  unfold comparePassword. simpl. by rewrite Hsound.
Qed.

(** C8.  For a user whose document has a hash: a password
    change the chains refuse answers 400 with their field errors; one
    they accept answers "Current password is incorrect." when the
    current password does not match the hash, and in both cases the
    store, hence every later login, is as before; one they accept with
    a matching current password stores the hash of the new password. *)
Theorem put_password_checks_current salt me body s user hash :
  User_findById_password me s = Some user -> u_password user = Some hash ->
  (forall e errs, password_validators body = e :: errs ->
     put_password salt me body s = (Respond 400 (ErrorsJson (e :: errs)), s))
  /\ (password_validators body = [] ->
      bcrypt_compare (default "" (p_currentPassword body)) hash = false ->
      put_password salt me body s = (wrong_current, s)
      /\ forall login, post_login login (put_password salt me body s).2
                       = post_login login s)
  /\ (password_validators body = [] ->
      bcrypt_compare (default "" (p_currentPassword body)) hash = true ->
      exists user',
        put_password salt me body s
        = (Respond 200 (MessageJson "Password updated successfully."),
           User_save_password salt me (default "" (p_newPassword body)) s)
        /\ User_findById_password me
             (User_save_password salt me (default "" (p_newPassword body)) s)
           = Some user'
        /\ u_password user'
           = Some (bcrypt_hash salt (default "" (p_newPassword body)))
        /\ u_id user' = u_id user /\ u_email user' = u_email user).
Proof.
  intros Hu Hh. unfold put_password. split; [|split].
  - by intros e errs ->.
  - intros -> Hc. rewrite Hu. unfold comparePassword. by rewrite Hh, Hc.
  - intros -> Hc. rewrite Hu. unfold comparePassword. rewrite Hh, Hc.
    eexists. split; [reflexivity|]. split.
    + unfold User_findById_password, User_save_password. simpl.
      by apply find_replace_user.
    + done.
Qed.

End Properties.

(** ** The statements on the sample platform *)

Lemma ann_store_tasks : tasks ann_store = [buy_milk].
Proof. reflexivity. Qed.

Lemma ann_store_reachable : @reachable Sample.platform ann_store.
Proof. unfold ann_store. do 2 apply reachable_handle. apply reachable_empty. Qed.

Lemma ann_store_ok : tasks_ok ann_store.
Proof. apply (@reachable_tasks_ok Sample.platform), ann_store_reachable. Qed.

Lemma chars_append a b : JS.chars (a ++ b) = (JS.chars a ++ JS.chars b)%list.
Proof. induction a as [|c a IH]; simpl; [done|]. by rewrite <- IH. Qed.

Lemma starts_with_app p l : JS.starts_with p (p ++ l)%list = true.
Proof. induction p as [|c p IH]; simpl; [done|]. by rewrite Ascii.eqb_refl. Qed.

Lemma sample_bcrypt_sound : @bcrypt_sound Sample.platform.
Proof.
  intros salt p. simpl. unfold Sample.compare, Sample.hash.
  rewrite (chars_append salt), rev_app_distr. apply starts_with_app.
Qed.

(** Witness of C1: Ann sends [{ user: <id 2> }] for her task. *)
Lemma put_task_reassigns_owner_witness :
  exists t' s',
    @put_task Sample.platform 6 0 id_1 (only_user id_2) ann_store
    = (Respond 200 (TaskJson t'), s')
    /\ t_id t' = t_id buy_milk /\ t_user buy_milk = 0 /\ t_user t' = 2
    /\ @get_task Sample.platform 2 id_1 s' = (Respond 200 (TaskJson t'), s')
    /\ @get_task Sample.platform 0 id_1 s' = (not_found, s').
Proof.
  apply (@put_task_reassigns_owner Sample.platform 6 ann_store 0 id_1 id_2 2 buy_milk).
  - apply ann_store_ok.
  - reflexivity.
  - reflexivity.
  - lia.
Defined.

(** Counterexample to C2 as stated: no task has id 7, and the update
    with a status outside the enumeration is answered 400, not 404; no
    task has the id [abc], which is no ObjectId, and reading it is
    answered 500, not 404. *)
Lemma hidden_task_not_404 :
  @castObjectId Sample.platform id_7 = Some 7 /\ absent 7 empty_store
  /\ @put_task Sample.platform 0 1 id_7 (only_status "archived") empty_store
     = (Respond 400 (ErrorsJson [{| field := "status"; message := "Invalid value" |}]),
        empty_store)
  /\ (@put_task Sample.platform 0 1 id_7 (only_status "archived") empty_store).1
     <> not_found
  /\ @castObjectId Sample.platform "abc" = None
  /\ @get_task Sample.platform 1 "abc" empty_store
     = (Respond 500 (ErrorJson "Failed to fetch task."), empty_store)
  /\ (@get_task Sample.platform 1 "abc" empty_store).1 <> not_found.
Proof.
  split; [reflexivity|]. split; [|split; [|split; [|split; [|split]]]].
  - intros t Ht. by apply elem_of_nil in Ht.
  - reflexivity.
  - discriminate.
  - reflexivity.
  - reflexivity.
  - discriminate.
Qed.

(** Witness of C2: user 7 asks for Ann's task. *)
Lemma task_hidden_unless_owner_witness :
  @reachable Sample.platform ann_store
  /\ owned_by_other 7 1 ann_store
  /\ @get_task Sample.platform 7 id_1 ann_store = (not_found, ann_store)
  /\ @delete_task Sample.platform 7 id_1 ann_store = (not_found, ann_store)
  /\ @put_task Sample.platform 6 7 id_1 (only_status "done") ann_store
     = (not_found, ann_store).
Proof.
  assert (owned_by_other 7 1 ann_store) as Hother.
  { exists buy_milk. rewrite ann_store_tasks. split; [by left|]. split; [reflexivity|].
    simpl. lia. }
  split; [apply ann_store_reachable|]. split; [exact Hother|].
  destruct (@task_hidden_unless_owner Sample.platform ann_store 7 id_1
              ann_store_reachable) as (Hhidden & _).
  destruct (Hhidden 1 eq_refl (or_intror Hother)) as (Hget & Hdel & Hput & _).
  split; [exact Hget|]. split; [exact Hdel|].
  apply (Hput 6%Z (only_status "done") eq_refl). eexists. reflexivity.
Defined.

(** Witness of C3: Ann registers on the empty store and logs in. *)
Lemma register_then_login_witness :
  exists user s',
    @post_register Sample.platform "salt" ann empty_store
    = (Respond 201 (AuthJson (@generateToken Sample.platform (u_id user)) user), s')
    /\ u_password user = None
    /\ @post_login Sample.platform ann_login s'
       = (Respond 200 (AuthJson (@generateToken Sample.platform (u_id user)) user), s').
Proof.
  apply (@register_then_login Sample.platform "salt" ann empty_store).
  - apply sample_bcrypt_sound.
  - reflexivity.
  - reflexivity.
Defined.



(** Witness of C6: Ann's three tasks, two to a page. *)
Lemma get_tasks_pagination_witness :
  exists pages : nat,
    (3 <= Z.of_nat pages * 2 < 3 + 2)%Z
    /\ concat (map (fun p => listed (@get_tasks Sample.platform 0
                                       (with_page (Z.of_nat p) (only_limit 2))
                                       busy_store))
                 (seq 1 pages)) ≡ₚ tasks busy_store
    /\ sum_list (map (fun p => length (listed (@get_tasks Sample.platform 0
                                                 (with_page (Z.of_nat p) (only_limit 2))
                                                 busy_store)))
                   (seq 1 pages)) = 3.
Proof.
  destruct (@get_tasks_pagination Sample.platform 0 (only_limit 2) busy_store
              all_of_ann None eq_refl eq_refl ltac:(unfold limit_of; simpl; lia))
    as (pages & Hb & _ & Hc & Hs).
  exists pages. split; [exact Hb|]. split; [exact Hc|exact Hs].
Defined.

(** Witness of C7: Ann creates the task "Buy milk" with the description
    "soon" and sends the update
    [{ "$rename": { "description": "status" } }], which no chain of PUT
    reads: the status of the task is then [soon], and the statistics
    count it under [total] and under none of the three statuses. *)
Lemma get_stats_counts_after_update_witness :
  @put_task_validators Sample.platform rename_description = []
  /\ @reachable Sample.platform renamed_store
  /\ exists t summary priority,
       @handle Sample.platform (PutTask ann_token 6 id_1 rename_description)
         noted_store = (Respond 200 (TaskJson t), renamed_store)
       /\ tasks renamed_store = [t] /\ t_status t = "soon"
       /\ @get_stats 0 renamed_store
          = (Respond 200 (StatsJson summary priority), renamed_store)
       /\ summary !! "todo" = Some 0 /\ summary !! "in-progress" = Some 0
       /\ summary !! "done" = Some 0 /\ summary !! "total" = Some 1.
Proof.
  split; [reflexivity|]. split.
  { unfold renamed_store, noted_store. do 3 apply reachable_handle.
    apply reachable_empty. }
  destruct (@get_stats_counts_after_update Sample.platform 6 0 id_1
              rename_description noted_store
              {| t_id := 1; t_user := 0; t_title := "Buy milk";
                 t_description := None; t_status := "soon";
                 t_priority := "medium"; t_dueDate := None; t_tags := [];
                 t_createdAt := 5; t_updatedAt := 6 |}
              renamed_store eq_refl eq_refl)
    as (summary & priority & Hstats & Htodo & Hprogress & Hdone & Htotal & _).
  { unfold statuses. simpl. intros Hin.
    repeat (apply elem_of_cons in Hin as [Hin|Hin]; [discriminate Hin|]).
    by apply elem_of_nil in Hin. }
  { intros x [->|[]%elem_of_nil]%elem_of_cons. discriminate. }
  eexists _, summary, priority. split; [reflexivity|]. split; [reflexivity|].
  split; [reflexivity|]. split; [exact Hstats|].
  split; [exact Htodo|]. split; [exact Hprogress|]. split; [exact Hdone|exact Htotal].
Defined.

(** Counterexample to C8 as stated: the current password is wrong and
    the answer is the list of field errors of the new password. *)
Lemma put_password_wrong_current_field_errors :
  exists user hash,
    @User_findById_password 0 ann_store = Some user
    /\ u_password user = Some hash
    /\ @bcrypt_compare Sample.platform "wrong1" hash = false
    /\ @put_password Sample.platform "salt" 0 (change_password "wrong1" "abc") ann_store
       = (Respond 400
            (ErrorsJson
               [{| field := "newPassword";
                   message := "New password must be at least 6 characters" |};
                {| field := "newPassword";
                   message := "New password must contain at least one number" |}]),
          ann_store)
    /\ (@put_password Sample.platform "salt" 0 (change_password "wrong1" "abc")
          ann_store).1 <> wrong_current.
Proof.
  eexists _, _. split; [reflexivity|]. split; [reflexivity|].
  split; [reflexivity|]. split; [reflexivity|]. discriminate.
Qed.

(** Witness of C8: a wrong and a right current password for Ann. *)
Lemma put_password_checks_current_witness :
  @put_password Sample.platform "salt" 0 (change_password "wrong1" "newpass1") ann_store
  = (wrong_current, ann_store)
  /\ exists user',
       @put_password Sample.platform "salt" 0 (change_password "abc123" "newpass1")
         ann_store
       = (Respond 200 (MessageJson "Password updated successfully."),
          @User_save_password Sample.platform "salt" 0 "newpass1" ann_store)
       /\ u_password user' = Some (@bcrypt_hash Sample.platform "salt" "newpass1").
Proof.
  destruct (@put_password_checks_current Sample.platform "salt" 0
              (change_password "wrong1" "newpass1") ann_store
              {| u_id := 0; u_name := "Ann"; u_email := "ann@x.com";
                 u_password := Some "salt$abc123"; u_bio := "" |}
              "salt$abc123" eq_refl eq_refl) as (_ & Hwrong & _).
  destruct (@put_password_checks_current Sample.platform "salt" 0
              (change_password "abc123" "newpass1") ann_store
              {| u_id := 0; u_name := "Ann"; u_email := "ann@x.com";
                 u_password := Some "salt$abc123"; u_bio := "" |}
              "salt$abc123" eq_refl eq_refl) as (_ & _ & Hright).
  split.
  - exact (proj1 (Hwrong eq_refl eq_refl)).
  - destruct (Hright eq_refl eq_refl) as (user' & Hp & _ & Hh & _).
    exists user'. split; [exact Hp|exact Hh].
Defined.

(** Counterexample to C9 as stated: the title sent is [" a "], the title
    stored is ["a"]; the due date [2024-W05] passes the chain and the
    update is answered 500; six tags, and tags that hold an object, are
    answered 500, and of the tags [a], [a] one is stored; the update
    [{ "$rename": { "description": "status" } }] supplies no field and
    changes the status and the description. *)
Lemma put_task_not_a_patch :
  (exists t' s',
     @put_task Sample.platform 6 0 id_1 (only_title " a ") ann_store
     = (Respond 200 (TaskJson t'), s')
     /\ t_title t' = "a" /\ t_title t' <> " a ")
  /\ (@put_task_validators Sample.platform (only_dueDate "2024-W05") = []
      /\ @put_task Sample.platform 6 0 id_1 (only_dueDate "2024-W05") ann_store
         = (Respond 500 (ErrorJson "Failed to update task."), ann_store))
  /\ (@put_task_validators Sample.platform (only_tags six_tags) = []
      /\ @put_task Sample.platform 6 0 id_1 (only_tags six_tags) ann_store
         = (Respond 500 (ErrorJson "Failed to update task."), ann_store))
  /\ (@put_task_validators Sample.platform object_tags = []
      /\ @put_task Sample.platform 6 0 id_1 object_tags ann_store
         = (Respond 500 (ErrorJson "Failed to update task."), ann_store))
  /\ (exists t' s',
        @put_task Sample.platform 6 0 id_1 (only_tags ["a"; "a"]) ann_store
        = (Respond 200 (TaskJson t'), s')
        /\ t_tags t' = ["a"])
  /\ (@put_task_validators Sample.platform rename_description = []
      /\ exists t t' s',
           @Task_findOne Sample.platform id_1 0 noted_store = Some (Some t)
           /\ @put_task Sample.platform 6 0 id_1 rename_description noted_store
              = (Respond 200 (TaskJson t'), s')
           /\ t_status t = "todo" /\ t_status t' = "soon"
           /\ t_description t = Some "soon" /\ t_description t' = None).
Proof.
  split; [|split; [|split; [|split; [|split]]]].
  - eexists _, _. split; [reflexivity|]. split; [reflexivity|discriminate].
  - split; reflexivity.
  - split; reflexivity.
  - split; reflexivity.
  - eexists _, _. split; reflexivity.
  - split; [reflexivity|]. eexists _, _, _. repeat (split; [reflexivity|]).
    reflexivity.
Qed.

Lemma only_status_stores `{Platform} status : put_stores (only_status status).
Proof. split; simpl; [done|done|by intros ? [=]..]. Qed.

(** Witness of C9: Ann marks her task as done. *)
Lemma put_task_patches_witness :
  exists t' l1 l2,
    @put_task Sample.platform 6 0 id_1 (only_status "done") ann_store
    = (Respond 200 (TaskJson t'), with_tasks ann_store (l1 ++ t' :: l2))
    /\ t_status t' = "done" /\ t_title t' = "Buy milk" /\ t_tags t' = [].
Proof.
  destruct (@put_task_patches Sample.platform 6 ann_store 0 id_1 (only_status "done")
              buy_milk eq_refl (only_status_stores "done") eq_refl)
    as (t' & l1 & l2 & Hp & _ & Htitle & _ & Hstatus & _ & _ & _ & Htags & _).
  exists t', l1, l2. split; [exact Hp|]. split; [exact Hstatus|].
  split; [exact Htitle|exact (Htags eq_refl)].
Defined.

(** The search text is a pattern: ["b.y"] finds "Buy milk", which does
    not contain it. *)
Lemma search_is_a_pattern :
  listed (@get_tasks Sample.platform 0 (only_search "b.y") ann_store) = [buy_milk]
  /\ JS.includes_ci "b.y" (t_title buy_milk) = false.
Proof. split; reflexivity. Qed.

(** Witness of C10: the search text ["("]. *)
Lemma get_tasks_bad_pattern_uncaught_witness :
  @get_tasks Sample.platform 0 (only_search "(") ann_store
  = (Uncaught (SyntaxError "("), ann_store)
  /\ status_of (@get_tasks Sample.platform 0 (only_search "(") ann_store).1 = None.
Proof.
  apply (@get_tasks_bad_pattern_uncaught Sample.platform 0 (only_search "(") "("
           ann_store); reflexivity.
Defined.

(** ** Further properties of the API *)

Section ApiProperties.

Context `{Platform}.

(** *** The invariant of the users collection *)

Lemma users_ok_empty : users_ok empty_store.
Proof. split; simpl; constructor. Qed.

Lemma users_ok_same s s' :
  users s' = users s -> next_id s <= next_id s' -> users_ok s -> users_ok s'.
Proof.
  intros Hu Hn [Hd Hb He Hh]. split; rewrite Hu; auto.
  eapply Forall_impl; [exact Hb|]. simpl. intros u Hlt. lia.
Qed.

Lemma find_email_none email l :
  List.find (has_email email) l = None -> email ∉ map u_email l.
Proof.
  intros Hf (u & -> & Hu)%list_elem_of_fmap.
  apply find_none_iff with (x := u) in Hf; [|done].
  unfold has_email in Hf. by rewrite String.eqb_refl in Hf.
Qed.

Lemma post_register_users_ok salt body s :
  users_ok s -> users_ok (post_register salt body s).2.
Proof.
  intros Hok. unfold post_register.
  destruct (register_validators body); [|done].
  destruct (User_findOne _ s) eqn:Hf; [done|]. simpl.
  unfold User_findOne in Hf. apply fmap_None, find_email_none in Hf.
  destruct Hok as [Hd Hb He Hh]. split; simpl; rewrite ?map_app; simpl.
  - apply NoDup_app. split; [done|]. split; [|apply NoDup_singleton].
    intros x Hx [<-|[]]%list_elem_of_In.
    apply list_elem_of_fmap in Hx as (u & Heq & Hu).
    rewrite Forall_forall in Hb. apply Hb in Hu. lia.
  - apply Forall_app. split.
    + eapply Forall_impl; [exact Hb|]. simpl. intros u Hlt. lia.
    + apply Forall_singleton. simpl. lia.
  - apply NoDup_app. split; [done|]. split; [|apply NoDup_singleton].
    by intros x Hx [<-|[]]%list_elem_of_In.
  - apply Forall_app. split; [done|]. apply Forall_singleton. by eexists.
Qed.

Lemma replace_user_map {A : Type} (g : User -> A) id f l :
  (forall u, g (f u) = g u) -> map g (replace_user id f l) = map g l.
Proof.
  intros Hg. induction l as [|x l IH]; simpl; [done|].
  destruct (has_id id x); simpl; [by rewrite Hg|by rewrite IH].
Qed.

Lemma replace_user_Forall (P : User -> Prop) id f l :
  (forall u, P (f u)) -> Forall P l -> Forall P (replace_user id f l).
Proof.
  intros Hf. induction 1 as [|x l Hx Hl IH]; simpl; [constructor|].
  destruct (has_id id x); constructor; auto.
Qed.

Lemma User_save_password_ok salt me new s :
  users_ok s -> users_ok (User_save_password salt me new s).
Proof.
  intros [Hd Hb He Hh]. split; simpl.
  - by rewrite replace_user_map.
  - clear -Hb. induction Hb as [|x l Hx Hl IH]; simpl; [constructor|].
    destruct (has_id me x); constructor; auto.
  - by rewrite replace_user_map.
  - apply replace_user_Forall; [|done]. intros u. by eexists.
Qed.

Lemma post_task_users now me body s :
  users (post_task now me body s).2 = users s
  /\ next_id s <= next_id (post_task now me body s).2.
Proof.
  unfold post_task. destruct (post_task_validators body); [|by split].
  destruct (Task_create _ _ _ s) as [[t s']|] eqn:Hc; [|by split].
  by apply Task_create_Some in Hc as (_ & _ & ? & ? & _).
Qed.

Lemma put_task_users now me id body s :
  users (put_task now me id body s).2 = users s
  /\ next_id s <= next_id (put_task now me id body s).2.
Proof.
  unfold put_task.
  destruct (put_task_validators body); [|by split].
  destruct (Task_findOneAndUpdate _ _ _ _ s) as [[[t'|] s']|] eqn:Hu; try by split.
  by apply Task_findOneAndUpdate_Some in Hu
    as (_id & f & t & l1 & l2 & _ & _ & _ & _ & _ & _ & _ & ->).
Qed.

Lemma delete_task_users me id s :
  users (delete_task me id s).2 = users s
  /\ next_id s <= next_id (delete_task me id s).2.
Proof.
  unfold delete_task.
  destruct (Task_findOneAndDelete id me s) as [[[t|] s']|] eqn:Hdel; try by split.
  by apply Task_findOneAndDelete_Some in Hdel as (_id & l1 & l2 & _ & _ & _ & _ & ->).
Qed.

Lemma handle_users_ok r s : users_ok s -> users_ok (handle r s).2.
Proof.
  intros Hok. destruct r; simpl.
  - by apply post_register_users_ok.
  - unfold post_login. destruct (login_validators body); [|done].
    destruct (User_findOne_password _ s) as [u|]; [|done].
    by destruct (comparePassword u _) as [[]|].
  - unfold protected. destruct (authenticate _ s) as [|u]; [done|].
    unfold put_password. destruct (password_validators body); [|done].
    destruct (User_findById_password _ s) as [u'|]; [|done].
    destruct (comparePassword u' _) as [[]|]; try done.
    simpl. by apply User_save_password_ok.
  - unfold protected. destruct (authenticate _ s) as [|u]; [done|].
    unfold get_tasks. destruct (build_filter _ q); [done|].
    destruct (Task_countDocuments _ s); [|done]. by destruct (Task_find _ _ _ _ _ s).
  - unfold protected. destruct (authenticate _ s) as [|u]; [done|].
    destruct (post_task_users now (u_id u) body s). by eapply users_ok_same.
  - unfold protected. destruct (authenticate _ s) as [|u]; [done|].
    unfold get_task. by destruct (Task_findOne _ _ s) as [[]|].
  - unfold protected. destruct (authenticate _ s) as [|u]; [done|].
    destruct (put_task_users now (u_id u) id body s). by eapply users_ok_same.
  - unfold protected. destruct (authenticate _ s) as [|u]; [done|].
    destruct (delete_task_users (u_id u) id s). by eapply users_ok_same.
  - unfold protected. by destruct (authenticate _ s) as [|u].
Qed.

Lemma reachable_users_ok s : reachable s -> users_ok s.
Proof.
  induction 1 as [|r s _ IH]; [apply users_ok_empty | by apply handle_users_ok].
Qed.

(** *** The gate of the protected routes *)


(** X2.  The identity [authenticate] attaches is a stored user, read
    without its password hash, whose id is the one the token of the
    header verifies to. *)
Theorem authenticate_attaches_stored_user a s user :
  authenticate a s = inr user ->
  u_password user = None
  /\ (exists stored, stored ∈ users s /\ user = select_default stored)
  /\ (exists token, a ≫= bearer_token = Some token
                    /\ jwt_verify token = Decoded (u_id user)).
Proof.
  unfold authenticate. intros Ha.
  destruct (a ≫= bearer_token) as [token|]; [|done].
  destruct (jwt_verify token) eqn:Hv; try done.
  unfold User_findById in Ha.
  destruct (List.find (has_id id) (users s)) as [stored|] eqn:Hf; [|done].
  simpl in Ha. injection Ha as <-.
  apply find_some in Hf as [Hin Hid]. unfold has_id in Hid.
  apply Nat.eqb_eq in Hid. split; [done|]. split.
  - exists stored. split; [by apply list_elem_of_In|done].
  - exists token. split; [done|]. simpl. by rewrite Hid.
Qed.

Lemma until_space_id l : " "%char ∉ l -> until_space l = l.
Proof.
  induction l as [|c l IH]; simpl; [done|].
  intros [Hc Hl]%not_elem_of_cons.
  destruct (Ascii.eqb_spec c " ") as [->|_]; [done|]. by rewrite IH.
Qed.

Lemma bearer_token_bearer token :
  " "%char ∉ JS.chars token -> bearer token ≫= bearer_token = Some token.
Proof.
  intros Hsp. unfold bearer. cbn [mbind option_bind]. unfold bearer_token.
  rewrite chars_append, starts_with_app.
  change 7 with (length (JS.chars "Bearer ")). rewrite drop_app_length.
  rewrite until_space_id by done.
  unfold JS.of_chars, JS.chars. by rewrite string_of_list_ascii_of_string.
Qed.

(** X3.  On a reachable store, the token a registration answers with,
    sent back as [Bearer <token>], authenticates as the registered user:
    provided a signed token verifies to its id and has no space. *)
Theorem registered_token_authenticates salt body s :
  reachable s -> jwt_sound -> register_validators body = [] ->
  User_findOne (sanitized_email (r_email body)) s = None ->
  exists token user s',
    post_register salt body s = (Respond 201 (AuthJson token user), s')
    /\ authenticate (bearer token) s' = inr user.
Proof.
  intros Hr Hjwt Hv Hfresh. apply reachable_users_ok in Hr as [_ Hb _ _].
  unfold post_register. rewrite Hv, Hfresh. simpl.
  eexists _, _, _. split; [reflexivity|].
  unfold authenticate, generateToken. simpl u_id.
  destruct (Hjwt (next_id s)) as [Hverify Hspace].
  rewrite bearer_token_bearer by done. rewrite Hverify.
  unfold User_findById. simpl.
  rewrite find_app_none.
  - simpl. unfold has_id. simpl. by rewrite Nat.eqb_refl.
  - apply find_none_iff. intros u Hu. rewrite Forall_forall in Hb.
    apply Hb in Hu. unfold has_id. apply Nat.eqb_neq. lia.
Qed.

(** *** Accounts *)

Lemma find_email_app_new email l u :
  u_email u = email ->
  exists found, List.find (has_email email) (l ++ [u]) = Some found.
Proof.
  intros He. induction l as [|x l IH]; simpl.
  - unfold has_email. rewrite He, String.eqb_refl. by eexists.
  - destruct (has_email email x); [by eexists|done].
Qed.

(** X4.  Once a registration with a valid body has been handled, a
    second valid registration whose email trims and normalises to the
    same address is answered 409 and adds no user. *)
Theorem register_twice_conflict salt salt' body body' s :
  register_validators body = [] -> register_validators body' = [] ->
  sanitized_email (r_email body') = sanitized_email (r_email body) ->
  post_register salt' body' (post_register salt body s).2
  = (Respond 409 (ErrorJson "An account with this email already exists."),
     (post_register salt body s).2).
Proof.
  intros Hv Hv' He.
  assert (exists found,
             User_findOne (sanitized_email (r_email body))
               (post_register salt body s).2 = Some found) as [found Hfound].
  { unfold post_register. rewrite Hv.
    destruct (User_findOne _ s) as [u|] eqn:Hf; simpl.
    - rewrite Hf. by eexists.
    - unfold User_findOne. simpl.
      edestruct (find_email_app_new (sanitized_email (r_email body)) (users s))
        as [found ->]; [|by eexists]. done. }
  unfold post_register at 1. rewrite Hv', He, Hfound. done.
Qed.

(** X5.  A login the chains accept is answered with one and the same
    401, and changes nothing, when no user has the email and when the
    password does not match the hash of the user who has it. *)
Theorem login_failures_alike body s :
  login_validators body = [] ->
  User_findOne_password (sanitized_email (l_email body)) s = None
  \/ (exists user hash,
        User_findOne_password (sanitized_email (l_email body)) s = Some user
        /\ u_password user = Some hash
        /\ bcrypt_compare (default "" (l_password body)) hash = false) ->
  post_login body s = (invalid_login, s).
Proof.
  intros Hv Hcase. unfold post_login. rewrite Hv.
  destruct Hcase as [->|(user & hash & -> & Hh & Hc)]; [done|].
  unfold comparePassword. by rewrite Hh, Hc.
Qed.

(** *** Tasks: what a user sees *)

Lemma find_app_split {A : Type} (sel : A -> bool) (l1 l2 : list A) :
  List.find sel (l1 ++ l2)
  = match List.find sel l1 with
    | Some x => Some x
    | None => List.find sel l2
    end.
Proof. induction l1 as [|a l1 IH]; simpl; [done|]. by destruct (sel a). Qed.

Lemma tasks_of_app owner s l :
  tasks s = l -> tasks_of owner s = filter (fun t => t_user t = owner) l.
Proof. by intros <-. Qed.

(** The three readings go through the user's own tasks only. *)
Lemma find_task_tasks_of id owner s :
  find_task id owner s
  = List.find (fun t => (t_id t =? id)%nat) (tasks_of owner s).
Proof.
  unfold find_task, tasks_of. induction (tasks s) as [|t l IH]; [done|].
  rewrite filter_cons. simpl. unfold owned_by at 1.
  destruct (decide (t_user t = owner)) as [Hu|Hu].
  - simpl. apply Nat.eqb_eq in Hu. rewrite Hu, andb_true_r.
    by destruct (t_id t =? id)%nat.
  - apply Nat.eqb_neq in Hu. rewrite Hu, andb_false_r. done.
Qed.

Lemma hits_tasks_of m f s :
  hits m f s
  = filter (fun t => matches_filter m f t = true) (tasks_of (f_user f) s).
Proof.
  unfold hits, tasks_of. rewrite list_filter_filter. apply list_filter_iff.
  intros t. split; [|by intros [? _]]. intros Hm. split; [done|].
  unfold matches_filter in Hm. rewrite !andb_true_iff in Hm.
  destruct Hm as [[[Hu _] _] _]. by apply Nat.eqb_eq.
Qed.

Lemma build_filter_user me q f : build_filter me q = inr f -> f_user f = me.
Proof.
  unfold build_filter. destruct (if_set (JS.trim <$> q_search q)) as [p|].
  - destruct (RegExp_valid p); [|done]. by intros [= <-].
  - by intros [= <-].
Qed.

Lemma same_tasks_same_view other s s' :
  tasks_of other s' = tasks_of other s -> same_view other s s'.
Proof.
  intros Hsame q id. split; [|split].
  - unfold get_tasks. destruct (build_filter other q) as [e|f] eqn:Hf; [done|].
    apply build_filter_user in Hf.
    unfold Task_countDocuments, Task_find.
    destruct (compile_filter f) as [m|]; [|done].
    rewrite !hits_tasks_of, Hf, Hsame. by destruct (_ <? 0)%Z.
  - unfold get_task, Task_findOne. destruct (castObjectId id) as [_id|]; [|done].
    rewrite !find_task_tasks_of, Hsame. by destruct (List.find _ _).
  - unfold get_stats, Task_aggregate. by rewrite Hsame.
Qed.

Lemma filter_user_skip (other : ObjectId) (t : Task) (l1 l2 : list Task) :
  t_user t <> other ->
  filter (fun x => t_user x = other) (l1 ++ t :: l2)
  = filter (fun x => t_user x = other) (l1 ++ l2).
Proof.
  intros Hne. rewrite !filter_app, filter_cons.
  by destruct (decide (t_user t = other)).
Qed.

(** The document built from the keys the chains read has the id, the
    owner and the time given, and the defaults of the schema. *)
Lemma cast_document_Some id now owner doc t :
  cast_document id now owner doc = Some t ->
  t_id t = id /\ t_user t = owner
  /\ t_status t = default "todo" (b_status doc)
  /\ t_priority t = default "medium" (b_priority doc).
Proof.
  unfold cast_document. destruct (b_title doc) as [title|]; [|done].
  destruct (truthy title); [|done].
  destruct (cast_dueDate _) as [date|]; [|done].
  destruct (match b_tags doc with Some _ => _ | None => _ end) as [tags|]; [|done].
  by intros [= <-].
Qed.

(** The update made of the keys the chains read keeps the owner unless
    it has the key [user]. *)
Lemma castUpdate_plain now upd f :
  b_other upd = [] -> castUpdate now upd = Some f ->
  exists u, f = (fun t => Some (apply_update now u t))
            /\ (b_user upd = None -> set_user u = None).
Proof.
  intros Hother. unfold castUpdate, cast_update. rewrite Hother.
  destruct (cast_dueDate _) as [date|]; [|done].
  destruct (match b_tags upd with Some _ => _ | None => _ end) as [tags|]; [|done].
  destruct (match b_user upd with Some _ => _ | None => _ end) as [user|] eqn:Hu;
    [|done].
  intros [= <-]. eexists. split; [reflexivity|]. simpl. intros Hn.
  rewrite Hn in Hu. by injection Hu as <-.
Qed.

(** X6.  What one user creates, deletes or updates leaves every response
    another user gets from the list, from reading a task and from the
    statistics as it was: for a creation and an update whose body has
    only keys the chains read, and for an update no key [user]. *)
Theorem other_users_unaffected now me other id body s :
  other <> me ->
  (b_other body = [] -> same_view other s (post_task now me body s).2)
  /\ same_view other s (delete_task me id s).2
  /\ (b_user body = None -> b_other body = [] ->
      same_view other s (put_task now me id body s).2).
Proof.
  intros Hne. split; [|split].
  - intros Hother. apply same_tasks_same_view. unfold post_task.
    destruct (post_task_validators body); [|done].
    destruct (Task_create _ _ _ s) as [[t s']|] eqn:Hc; [|done]. simpl.
    pose proof Hc as (_ & Htasks & _)%Task_create_Some.
    unfold Task_create in Hc. simpl in Hc. rewrite Hother in Hc.
    destruct (cast_document _ _ _ _) as [t0|] eqn:Hdoc; [|done].
    apply cast_document_Some in Hdoc as (_ & Hu & _).
    destruct (existsb _ _); [done|]. injection Hc as <- _.
    unfold tasks_of. rewrite Htasks, filter_app, filter_cons.
    destruct (decide (t_user t0 = other)); [congruence|].
    by rewrite filter_nil, app_nil_r.
  - apply same_tasks_same_view. unfold delete_task.
    destruct (Task_findOneAndDelete id me s) as [[[t|] s']|] eqn:Hdel; try done.
    apply Task_findOneAndDelete_Some in Hdel
      as (_id & l1 & l2 & _ & Hf & Hl & _ & ->).
    simpl. unfold tasks_of. simpl. rewrite Hl.
    apply find_owned_by in Hf as [_ Hu].
    symmetry. apply filter_user_skip. congruence.
  - intros Hbody Hother. apply same_tasks_same_view. unfold put_task.
    destruct (put_task_validators body); [|done].
    destruct (Task_findOneAndUpdate _ _ _ _ s) as [[[t'|] s']|] eqn:Hu; try done.
    apply Task_findOneAndUpdate_Some in Hu
      as (_id & f & t & l1 & l2 & _ & Hcast & Hf & Hft & _ & Hl & _ & ->).
    apply castUpdate_plain in Hcast as (u & -> & Huser); [|done].
    injection Hft as <-. simpl. unfold tasks_of. simpl. rewrite Hl.
    apply find_owned_by in Hf as [_ Hu].
    rewrite filter_user_skip by (simpl; rewrite Huser by done; simpl; congruence).
    symmetry. apply filter_user_skip. congruence.
Qed.

(** *** Tasks: creating, reading back, deleting *)



(** X8.  A successful DELETE removes exactly the task it names: the
    other tasks stay in place and in order, every id that casts
    otherwise reads as before for everyone, and on a store that keeps
    the invariant the deleted id reads 404 afterwards. *)
Theorem delete_task_removes_one me id s t :
  Task_findOne id me s = Some (Some t) ->
  exists l1 l2,
    tasks s = l1 ++ t :: l2
    /\ delete_task me id s
       = (Respond 200 (MessageJson "Task deleted successfully."),
          with_tasks s (l1 ++ l2))
    /\ (forall id' o, castObjectId id' <> castObjectId id ->
          Task_findOne id' o (with_tasks s (l1 ++ l2)) = Task_findOne id' o s)
    /\ (tasks_ok s ->
        forall o, get_task o id (with_tasks s (l1 ++ l2))
                  = (not_found, with_tasks s (l1 ++ l2))).
Proof.
  intros (_id & Hc & Hf)%Task_findOne_Some.
  destruct (Task_findOneAndDelete_hit _ _ _ _ _ Hc Hf) as (l1 & l2 & Hl & Hl1 & Hrm).
  destruct (find_owned_by _ _ _ _ Hf) as [Hid Hu].
  exists l1, l2. split; [done|]. split.
  - unfold delete_task. by rewrite Hrm.
  - split.
    + intros id' o Hne. unfold Task_findOne, find_task.
      destruct (castObjectId id') as [_id'|]; [|done]. simpl. rewrite Hl.
      rewrite !find_app_split. simpl.
      replace (owned_by _id' o t) with false; [done|].
      symmetry. unfold owned_by. apply andb_false_iff. left.
      apply Nat.eqb_neq. congruence.
    + intros [Hd _] o. rewrite Hl in Hd.
      unfold get_task, Task_findOne, find_task. rewrite Hc. simpl.
      replace (List.find (owned_by _id o) (l1 ++ l2)) with (@None Task); [done|].
      symmetry. apply find_none_iff. intros x Hx.
      apply not_true_is_false. rewrite owned_by_spec. intros [Hx' _].
      eapply NoDup_ids_middle in Hd; [|exact Hx]. congruence.
Qed.

(** *** Tasks: updating *)

Lemma apply_update_twice now upd t :
  apply_update now upd (apply_update now upd t) = apply_update now upd t.
Proof.
  unfold apply_update. simpl.
  destruct upd as [ti de st pr du ta us]. simpl.
  by destruct ti, de, st, pr, du, ta, us.
Qed.

(** X9.  An update, whatever its body, changes at most the task it
    names: the ids of the collection stay as they are, in order, and
    every id that casts otherwise reads as before for everyone; when it
    succeeds with a body that has only keys the chains read, reading
    the task back gives the record of the response. *)
Theorem put_task_touches_one now me id body s :
  map t_id (tasks (put_task now me id body s).2) = map t_id (tasks s)
  /\ (forall id' o, castObjectId id' <> castObjectId id ->
        Task_findOne id' o (put_task now me id body s).2 = Task_findOne id' o s)
  /\ (b_user body = None -> b_other body = [] ->
      forall t', (put_task now me id body s).1 = Respond 200 (TaskJson t') ->
                 get_task me id (put_task now me id body s).2
                 = (Respond 200 (TaskJson t'), (put_task now me id body s).2)).
Proof.
  unfold put_task.
  destruct (put_task_validators body) as [|e errs]; [|by repeat split].
  destruct (Task_findOneAndUpdate _ _ _ _ s) as [[[t1|] s']|] eqn:Hu;
    try by repeat split.
  apply Task_findOneAndUpdate_Some in Hu
    as (_id & f & t & l1 & l2 & Hc & Hcast & Hf & Hft & Hid' & Hl & Hl1 & ->).
  simpl. apply find_owned_by in Hf as [Hid Hu]. split; [|split].
  - rewrite Hl, !map_app. simpl. by rewrite Hid'.
  - intros id' o Hne. unfold Task_findOne, find_task.
    destruct (castObjectId id') as [_id'|]; [|done]. simpl. rewrite Hl.
    rewrite !find_app_split. simpl.
    assert (forall x, t_id x = _id -> owned_by _id' o x = false) as Hskip.
    { intros x Hx. unfold owned_by. apply andb_false_iff. left.
      apply Nat.eqb_neq. congruence. }
    rewrite (Hskip t Hid), (Hskip t1) by congruence. done.
  - intros Hbody Hother t' [= <-].
    apply castUpdate_plain in Hcast as (u & -> & Huser); [|done].
    injection Hft as <-. unfold get_task, Task_findOne, find_task. rewrite Hc. simpl.
    rewrite find_app_none by done. simpl. unfold owned_by at 1. simpl.
    rewrite Huser by done. simpl. by rewrite Hid, Hu, !Nat.eqb_refl.
Qed.

(** X10.  Sending the same update twice, with a body that has only keys
    the chains read, gives the second time the response and the store
    of the first. *)
Theorem put_task_idempotent now me id body s :
  b_user body = None -> b_other body = [] ->
  put_task now me id body (put_task now me id body s).2
  = ((put_task now me id body s).1, (put_task now me id body s).2).
Proof.
  intros Hbody Hother. unfold put_task.
  destruct (put_task_validators body) as [|e errs]; [|done].
  destruct (Task_findOneAndUpdate _ _ _ _ s) as [[[t1|] s']|] eqn:Hu; simpl.
  - pose proof Hu as (_id & f & t & l1 & l2 & Hc & Hcast & Hf & Hft & Hid' & Hl
                      & Hl1 & ->)%Task_findOneAndUpdate_Some.
    pose proof Hcast as (u & -> & Huser)%castUpdate_plain; [|done].
    injection Hft as <-. apply find_owned_by in Hf as [Hid Hown].
    set (t1 := apply_update now u t).
    assert (List.find (owned_by _id me) (l1 ++ t1 :: l2) = Some t1) as Hf1.
    { rewrite find_app_none by done. simpl. unfold owned_by at 1. unfold t1. simpl.
      rewrite Huser by done. simpl. by rewrite Hid, Hown, !Nat.eqb_refl. }
    assert (apply_update now u t1 = t1) as Htwice by apply apply_update_twice.
    unfold Task_findOneAndUpdate, find_task. rewrite Hc, Hcast. simpl.
    rewrite Hf1, Htwice, Nat.eqb_refl.
    destruct (update_first_hit _ (fun _ => t1) _ _ Hf1) as (k1 & k2 & Hk & _ & ->).
    simpl. by rewrite <- Hk.
  - pose proof (Task_findOneAndUpdate_None _ _ _ _ _ _ Hu) as ->. by rewrite Hu.
  - by rewrite Hu.
Qed.

(** *** Tasks: the statistics follow the collection *)





(** *** Listing: what a page holds *)

Lemma build_filter_fields me q f :
  build_filter me q = inr f ->
  f_user f = me /\ f_status f = if_set (q_status q)
  /\ f_priority f = if_set (q_priority q)
  /\ f_search f = if_set (JS.trim <$> q_search q).
Proof.
  unfold build_filter. destruct (if_set (JS.trim <$> q_search q)) as [p|].
  - destruct (RegExp_valid p); [|done]. by intros [= <-].
  - by intros [= <-].
Qed.

Lemma apply_limit_subseteq n (l : list Task) : apply_limit n l ⊆ l.
Proof.
  unfold apply_limit. destruct (n =? 0)%Z; [done|]. apply subseteq_take.
Qed.

Lemma eq_if_set_spec want have :
  eq_if_set want have = true -> forall v, want = Some v -> have = v.
Proof.
  intros He v ->. simpl in He. by apply String.eqb_eq.
Qed.

(** X12.  Whatever the query, every task of a list response is a task
    of the store that belongs to the caller, has the status and the
    priority the query asks for and, when the query has a search text,
    a title, a description or a tag that the pattern matches. *)
Theorem listed_tasks_match_query me q s :
  Forall (fun t => t ∈ tasks s /\ t_user t = me
                   /\ (forall v, if_set (q_status q) = Some v -> t_status t = v)
                   /\ (forall v, if_set (q_priority q) = Some v -> t_priority t = v)
                   /\ (forall pattern test,
                         if_set (JS.trim <$> q_search q) = Some pattern ->
                         regex_compile pattern = Some test ->
                         test (t_title t) = true
                         \/ (exists d, t_description t = Some d /\ test d = true)
                         \/ (exists tag, tag ∈ t_tags t /\ test tag = true)))
         (listed (get_tasks me q s)).
Proof.
  unfold get_tasks.
  destruct (build_filter me q) as [e|f] eqn:Hf; [by constructor|].
  apply build_filter_fields in Hf as (Hu & Hst & Hpr & Hsearch).
  unfold Task_countDocuments, Task_find.
  destruct (compile_filter f) as [m|] eqn:Hc; [|by constructor].
  destruct (_ <? 0)%Z; [by constructor|].
  unfold listed. simpl. apply Forall_forall. intros t Ht.
  apply apply_limit_subseteq, subseteq_drop in Ht.
  rewrite sort_tasks_perm in Ht. unfold hits in Ht.
  apply list_elem_of_filter in Ht as [Hm Hin]. split; [done|].
  unfold matches_filter in Hm. rewrite !andb_true_iff in Hm.
  destruct Hm as [[[Hmu Hms] Hmp] Hmatch]. apply Nat.eqb_eq in Hmu.
  rewrite <- Hu, <- Hst, <- Hpr, <- Hsearch. split; [done|].
  split; [by apply eq_if_set_spec|]. split; [by apply eq_if_set_spec|].
  intros pattern test Hp Ht. unfold compile_filter in Hc.
  rewrite Hp, Ht in Hc. injection Hc as <-.
  rewrite !orb_true_iff in Hmatch. destruct Hmatch as [[Hti|Hde]|Hta].
  - by left.
  - right. left. destruct (t_description t) as [d|]; [by exists d|done].
  - right. right. apply existsb_exists in Hta as (tag & Hin' & Htag).
    exists tag. split; [by apply list_elem_of_In|done].
Qed.

Lemma key_leb_total a b : key_leb a b = false -> key_leb b a = true.
Proof.
  destruct a, b; simpl; try done.
  - intros Hf. destruct (String.leb_total v v0) as [Ht|Ht]; congruence.
  - intros Hf%Nat.leb_gt. apply Nat.leb_le. lia.
  - intros Hf%Z.leb_gt. apply Z.leb_le. lia.
Qed.

Lemma sort_le_total sortBy sortOrder x y :
  sort_le sortBy sortOrder x y = false -> sort_le sortBy sortOrder y x = true.
Proof. unfold sort_le. destruct (0 <? sortOrder)%Z; apply key_leb_total. Qed.

Lemma ordered_tail {A : Type} (le : A -> A -> bool) x l :
  ordered le (x :: l) -> ordered le l.
Proof. destruct l; simpl; tauto. Qed.

Lemma insert_sorted_ordered le x l :
  (forall a b, le a b = false -> le b a = true) ->
  ordered le l -> ordered le (insert_sorted le x l).
Proof.
  intros Htotal. induction l as [|y l IH]; intros Hord; [done|].
  simpl. destruct (le x y) eqn:Hxy; [by split|].
  pose proof (IH (ordered_tail _ _ _ Hord)) as Hins.
  destruct l as [|z l]; simpl in *; [by auto|].
  destruct Hord as [Hyz Hord]. destruct (le x z); simpl in *; auto.
Qed.

Lemma sort_tasks_ordered sortBy sortOrder l :
  ordered (sort_le sortBy sortOrder) (sort_tasks sortBy sortOrder l).
Proof.
  change (sort_tasks sortBy sortOrder l)
    with (fold_right (insert_sorted (sort_le sortBy sortOrder)) [] l).
  induction l as [|x l IH]; simpl; [done|].
  apply insert_sorted_ordered; [apply sort_le_total|done].
Qed.

Lemma ordered_drop {A : Type} (le : A -> A -> bool) n l :
  ordered le l -> ordered le (drop n l).
Proof.
  revert l. induction n as [|n IH]; intros l Hl; [by rewrite drop_0|].
  destruct l as [|x l]; [done|]. simpl. apply IH. by eapply ordered_tail.
Qed.

Lemma ordered_take {A : Type} (le : A -> A -> bool) n l :
  ordered le l -> ordered le (take n l).
Proof.
  revert l. induction n as [|n IH]; intros l Hl; [done|].
  destruct l as [|x l]; [done|]. simpl.
  pose proof (IH l (ordered_tail _ _ _ Hl)) as Ht.
  destruct l as [|y l]; [by destruct n|].
  destruct n as [|n]; [done|]. simpl in *. tauto.
Qed.

(** X13.  Whatever the query, the tasks of a list response are in the
    order of the sort path and direction of the query: each task is at
    most its successor, for the ascending direction, and at least it
    otherwise. *)
Theorem listed_tasks_ordered me q s :
  ordered (sort_le (sortBy_of q) (sortOrder_of q)) (listed (get_tasks me q s)).
Proof.
  unfold get_tasks.
  destruct (build_filter me q) as [e|f]; [done|].
  unfold Task_countDocuments, Task_find.
  destruct (compile_filter f) as [m|]; [|done].
  destruct (_ <? 0)%Z; [done|].
  unfold listed. simpl. unfold apply_limit.
  destruct (_ =? 0)%Z; [|apply ordered_take];
    apply ordered_drop, sort_tasks_ordered.
Qed.

(** X14.  For a filter the query accepts and a page size of at least 1,
    page [p] holds the page size or what is left of the selected tasks
    after the pages before it, whichever is less: nothing at all past
    the last page. *)
Theorem page_length me q s f m (p : nat) :
  build_filter me q = inr f -> compile_filter f = Some m ->
  (1 <= limit_of q)%Z -> 1 <= p ->
  length (listed (get_tasks me (with_page (Z.of_nat p) q) s))
  = Nat.min (Z.to_nat (limit_of q))
            (length (hits m f s) - (p - 1) * Z.to_nat (limit_of q)).
Proof.
  intros Hf Hm Hl Hp. rewrite (get_tasks_page _ _ _ f m) by done.
  unfold listed. simpl. rewrite length_take, length_drop.
  by rewrite (Permutation_length (sort_tasks_perm _ _ _)).
Qed.

(** *** Accounts: the new password logs in *)

Lemma find_email_replaced me f l user :
  NoDup (map u_email l) ->
  (forall u, u_email (f u) = u_email u) ->
  List.find (has_id me) l = Some user ->
  List.find (has_email (u_email user)) (replace_user me f l) = Some (f user).
Proof.
  intros Hd Hf. induction l as [|x l IH]; simpl; [done|].
  simpl in Hd. apply NoDup_cons in Hd as [Hx Hd].
  destruct (has_id me x) eqn:Hid.
  - intros [= ->]. simpl. unfold has_email. by rewrite Hf, String.eqb_refl.
  - intros Hl. simpl. unfold has_email at 1.
    destruct (String.eqb_spec (u_email x) (u_email user)) as [Heq|_]; [|by apply IH].
    exfalso. apply Hx. rewrite Heq. apply list_elem_of_fmap_2.
    apply find_some in Hl as [Hin _]. by apply list_elem_of_In.
Qed.

(** X15.  On a reachable store, after a password change that succeeded,
    a login the chains accept, with an email that trims and normalises
    to the user's address and with the new password, answers 200 with
    that user: provided bcrypt accepts a plaintext against its own hash. *)
Theorem new_password_logs_in salt me body login s user hash :
  reachable s -> bcrypt_sound ->
  User_findById_password me s = Some user -> u_password user = Some hash ->
  password_validators body = [] ->
  bcrypt_compare (default "" (p_currentPassword body)) hash = true ->
  login_validators login = [] ->
  sanitized_email (l_email login) = u_email user ->
  l_password login = Some (default "" (p_newPassword body)) ->
  exists token logged,
    post_login login (put_password salt me body s).2
    = (Respond 200 (AuthJson token logged), (put_password salt me body s).2)
    /\ u_id logged = u_id user /\ u_email logged = u_email user
    /\ u_password logged = None.
Proof.
  intros Hr Hsound Hu Hh Hv Hc Hlv He Hp.
  apply reachable_users_ok in Hr as [_ _ Hemails _].
  assert (put_password salt me body s
          = (Respond 200 (MessageJson "Password updated successfully."),
             User_save_password salt me (default "" (p_newPassword body)) s))
    as ->.
  { unfold put_password. rewrite Hv, Hu. unfold comparePassword.
    by rewrite Hh, Hc. }
  unfold post_login. rewrite Hlv, He, Hp. simpl.
  unfold User_findOne_password, User_save_password. simpl.
  unfold User_findById_password in Hu.
  rewrite (find_email_replaced me _ (users s) user) by done.
  unfold comparePassword. simpl. rewrite Hsound.
  eexists _, _. split; [reflexivity|]. done.
Qed.

End ApiProperties.

(** ** Properties of the client *)

Section ClientProperties.

Context `{Platform}.

(** *** The tag editor *)

Lemma chars_of_chars l : JS.chars (JS.of_chars l) = l.
Proof. apply list_ascii_of_string_of_list_ascii. Qed.

Lemma remove_commas_no_comma s : ","%char ∉ JS.chars (remove_commas s).
Proof.
  unfold remove_commas. rewrite chars_of_chars.
  intros Hin%list_elem_of_In. apply filter_In in Hin as [_ Hc].
  by rewrite Ascii.eqb_refl in Hc.
Qed.

Lemma truthy_not_empty s : truthy s = true -> s <> "".
Proof. intros Ht ->. done. Qed.

Lemma includes_false val l : includes val l = false -> val ∉ l.
Proof.
  unfold includes. intros He Hin%list_elem_of_In.
  apply not_true_iff_false in He. apply He, existsb_exists.
  exists val. split; [done|apply String.eqb_refl].
Qed.

Lemma filter_length_le' {A : Type} (f : A -> bool) (l : list A) :
  length (List.filter f l) <= length l.
Proof. induction l as [|x l IH]; simpl; [done|]. destruct (f x); simpl; lia. Qed.

Lemma Forall_filter' {A : Type} (P : A -> Prop) (f : A -> bool) (l : list A) :
  Forall P l -> Forall P (List.filter f l).
Proof.
  induction 1 as [|x l Hx Hl IH]; simpl; [constructor|].
  destruct (f x); [by constructor|done].
Qed.

Lemma NoDup_filter' {A : Type} (f : A -> bool) (l : list A) :
  NoDup l -> NoDup (List.filter f l).
Proof.
  induction 1 as [|x l Hx Hl IH]; simpl; [constructor|].
  destruct (f x); [|done]. apply NoDup_cons. split; [|done].
  intros Hin%list_elem_of_In. apply filter_In in Hin as [Hin _].
  by apply Hx, list_elem_of_In.
Qed.

Lemma tag_step_ok e ed : tags_ok (ed_tags ed) -> tags_ok (ed_tags (tag_step e ed)).
Proof.
  intros Hok. destruct e as [value|key|tag]; simpl; [done| |].
  - unfold addTag. destruct (_ || _); [|done]. simpl.
    destruct (truthy _ && negb _ && _) eqn:Hc; [|done].
    rewrite !andb_true_iff, negb_true_iff, Nat.ltb_lt in Hc.
    destruct Hc as [[Ht Hi] Hlen]. destruct Hok as [Hd Hl He Hcomma]. split.
    + apply NoDup_app. split; [done|]. split; [|apply NoDup_singleton].
      intros x Hx [<-|[]]%list_elem_of_In. by apply includes_false in Hi.
    + rewrite length_app. simpl. lia.
    + apply Forall_app. split; [done|]. apply Forall_singleton.
      by apply truthy_not_empty.
    + apply Forall_app. split; [done|]. apply Forall_singleton.
      apply remove_commas_no_comma.
  - destruct Hok as [Hd Hl He Hcomma]. split.
    + by apply NoDup_filter'.
    + pose proof (filter_length_le' (fun t => negb (String.eqb t tag)) (ed_tags ed)).
      lia.
    + by apply Forall_filter'.
    + by apply Forall_filter'.
Qed.

(** X16.  Whatever is typed, entered and removed in the tag editor of a
    new task, its tags are distinct, at most five, never empty and
    without a comma. *)
Theorem new_task_tags_ok events :
  tags_ok (ed_tags (run_tags events new_task_editor)).
Proof.
  unfold run_tags.
  assert (tags_ok (ed_tags new_task_editor)) as Hstart.
  { split; simpl; [constructor|lia|constructor|constructor]. }
  revert Hstart. generalize new_task_editor.
  induction events as [|e events IH]; intros ed Hok; simpl; [done|].
  by apply IH, tag_step_ok.
Qed.

Lemma filter_not_present (tag : string) (l : list string) :
  tag ∉ l -> List.filter (fun t => negb (String.eqb t tag)) l = l.
Proof.
  induction l as [|x l IH]; simpl; [done|].
  intros [Hx Hl]%not_elem_of_cons.
  destruct (String.eqb_spec x tag) as [->|_]; [done|]. simpl. by rewrite IH.
Qed.

(** X17.  Entering a tag that is not among the tags and removing it
    again gives back the tags as they were, in their order. *)
Theorem removeTag_undoes_addTag key ed :
  remove_commas (JS.trim (ed_tagInput ed)) ∉ ed_tags ed ->
  ed_tags (removeTag (remove_commas (JS.trim (ed_tagInput ed))) (addTag key ed))
  = ed_tags ed.
Proof.
  intros Hnew. unfold addTag. destruct (_ || _).
  - simpl. destruct (truthy _ && negb _ && _).
    + rewrite List.filter_app. simpl. rewrite String.eqb_refl. simpl.
      rewrite app_nil_r. by apply filter_not_present.
    + by apply filter_not_present.
  - simpl. by apply filter_not_present.
Qed.

(** *** The form and the chains of the API *)










(** *** The strength meter and the chains of registration *)




(** *** The pagination of the dashboard *)

Lemma page_buttons_spec page pages p :
  p ∈ page_buttons page pages <->
  (Z.max 1 (Z.min (pages - 4) (page - 2)) <= p
   < Z.max 1 (Z.min (pages - 4) (page - 2)) + Z.min 5 pages)%Z.
Proof.
  unfold page_buttons. rewrite list_elem_of_fmap. split.
  - intros (i & -> & Hi). apply elem_of_seq in Hi. lia.
  - intros Hp.
    exists (Z.to_nat (p - Z.max 1 (Z.min (pages - 4) (page - 2)))). split.
    + lia.
    + apply elem_of_seq. lia.
Qed.

(** X20.  With the current page between 1 and the number of pages, the
    numbered buttons are [min(5, pages)] page numbers, all between 1 and
    the number of pages, the current page among them. *)
Theorem page_buttons_window page pages :
  (1 <= page <= pages)%Z ->
  length (page_buttons page pages) = Z.to_nat (Z.min 5 pages)
  /\ page ∈ page_buttons page pages
  /\ Forall (fun p => (1 <= p <= pages)%Z) (page_buttons page pages).
Proof.
  intros Hp. split; [|split].
  - unfold page_buttons. by rewrite length_map, length_seq.
  - apply page_buttons_spec. lia.
  - apply Forall_forall. intros p Hin%page_buttons_spec. lia.
Qed.

(** X21.  For a page that is not past the end of the selected tasks,
    the range "Showing first–last" computed from the pagination of the
    response spans exactly the tasks of the response. *)
Theorem showing_range_is_page me q s f m (p : nat) :
  build_filter me q = inr f -> compile_filter f = Some m ->
  (1 <= limit_of q)%Z -> 1 <= p ->
  (p - 1) * Z.to_nat (limit_of q) < length (hits m f s) ->
  Z.of_nat (length (listed (get_tasks me (with_page (Z.of_nat p) q) s)))
  = (showing_last (Z.of_nat p) (limit_of q) (Z.of_nat (length (hits m f s)))
     - showing_first (Z.of_nat p) (limit_of q) + 1)%Z.
Proof.
  intros Hf Hm Hl Hp Hin. rewrite (get_tasks_page _ _ _ f m) by done.
  unfold listed, showing_last, showing_first. simpl.
  rewrite length_take, length_drop.
  rewrite (Permutation_length (sort_tasks_perm _ _ _)). nia.
Qed.

(** *** The filters of the dashboard and the chains of the list *)

Lemma sort_option_parts v :
  v ∈ sort_options ->
  exists sortBy order,
    split ":" v !! 0 = Some sortBy /\ split ":" v !! 1 = Some order
    /\ sortBy ∈ ["createdAt"; "dueDate"; "priority"; "title"]
    /\ order ∈ ["asc"; "desc"].
Proof.
  unfold sort_options. intros Hv.
  repeat (apply elem_of_cons in Hv as [->|Hv];
          [eexists _, _; split; [reflexivity|]; split; [reflexivity|];
           split; set_solver|]).
  by apply elem_of_nil in Hv.
Qed.

Lemma if_set_Some a x : if_set (Some a) = Some x -> x = a /\ truthy a = true.
Proof. unfold if_set. destruct (truthy a); [|done]. by intros [= <-]. Qed.

Lemma setPage_ok p f : filters_ok f -> (1 <= p)%Z -> filters_ok (setPage p f).
Proof. intros [Hs Hp Hsort Hl Hpage] Hp1. by split. Qed.

(** X22.  The filters start among those the controls can produce and
    stay among them under every event the controls offer, as long as
    the page of the filters is the page of the pagination shown and is
    not past its last page; and the list request built from such
    filters passes every chain of GET [/api/tasks]. *)
Theorem dashboard_requests_pass_chains :
  filters_ok initial_filters
  /\ (forall f pages e,
        filters_ok f -> (fl_page f <= pages)%Z -> offered (fl_page f) pages e ->
        filters_ok (ui_step e f))
  /\ (forall f, filters_ok f -> get_tasks_validators (loadTasks f) = []).
Proof.
  split; [|split].
  - split; simpl; [set_solver|set_solver| |done|lia].
    exists "createdAt:desc". split; [set_solver|]. by split.
  - intros f pages e Hok Hpages Hoff. pose proof Hok as [Hs Hp Hsort Hl Hpage].
    destruct e as [val|[] value|value| | |p]; simpl in *.
    + by split.
    + by split.
    + by split.
    + split; simpl; try done. by exists value.
    + apply setPage_ok; [done|lia].
    + apply setPage_ok; [done|lia].
    + apply setPage_ok; [done|]. destruct Hoff as [_ Hin].
      apply page_buttons_spec in Hin. lia.
  - intros f [Hs Hp (v & Hv & Hby & Hord) Hl Hpage].
    destruct (sort_option_parts v Hv) as (sortBy & order & H0 & H1 & HsortBy & Horder).
    unfold get_tasks_validators. rewrite !app_nil, !optional_nil.
    repeat split; intros x Hx; apply check_nil; unfold loadTasks in Hx; simpl in Hx.
    + apply if_set_Some in Hx as [-> Ht]. apply isIn_elem_of.
      unfold status_options in Hs.
      apply elem_of_cons in Hs as [Hs|Hs]; [by rewrite Hs in Ht|done].
    + apply if_set_Some in Hx as [-> Ht]. apply isIn_elem_of.
      unfold priority_options in Hp.
      apply elem_of_cons in Hp as [Hp|Hp]; [by rewrite Hp in Ht|done].
    + injection Hx as <-. unfold JS.isInt. rewrite andb_true_r. by apply Z.leb_le.
    + injection Hx as <-. by rewrite Hl.
    + apply isIn_elem_of. congruence.
    + apply isIn_elem_of. congruence.
Qed.

(** *** The session *)

Lemma session_step_mirrors e se :
  se_token se = se_storage se !! "token" ->
  se_token (session_step e se) = se_storage (session_step e se) !! "token".
Proof.
  intros Hinv. destruct e as [me|token user| |user]; simpl.
  - unfold initAuth. destruct (se_storage se !! "token") as [saved|] eqn:Hs.
    + destruct (truthy saved); [|by simpl; rewrite Hs].
      destruct me; simpl; [by rewrite Hs|].
      rewrite lookup_delete_ne by done. by rewrite lookup_delete_eq.
    + simpl. by rewrite Hs.
  - by rewrite lookup_insert_eq.
  - rewrite lookup_delete_ne by done. by rewrite lookup_delete_eq.
  - done.
Qed.

(** X23.  Through every sequence of session events the token of the
    provider is the token in [localStorage]; and after a logout the
    next [initAuth] leaves the session without user and without token,
    whatever the API would answer. *)
Theorem session_token_mirrors_storage storage events :
  se_token (run_session events (session_start storage))
  = se_storage (run_session events (session_start storage)) !! "token"
  /\ (forall me,
        se_user (initAuth me (logout (run_session events (session_start storage))))
        = None
        /\ se_token (initAuth me (logout (run_session events (session_start storage))))
           = None).
Proof.
  split.
  - unfold run_session.
    assert (se_token (session_start storage)
            = se_storage (session_start storage) !! "token") as Hstart by done.
    revert Hstart. generalize (session_start storage).
    induction events as [|e events IH]; intros se Hinv; simpl; [done|].
    by apply IH, session_step_mirrors.
  - intros me. generalize (run_session events (session_start storage)).
    intros se. unfold initAuth, logout. simpl.
    rewrite lookup_delete_ne by done. by rewrite lookup_delete_eq.
Qed.

End ClientProperties.

(** ** The further properties on the sample platform *)

Lemma sample_jwt_sound : @jwt_sound Sample.platform.
Proof.
  intros id. simpl. rewrite chars_of_chars.
  change ("j"%char :: repeat "j"%char id) with (repeat "j"%char (S id)). split.
  - rewrite (proj2 (forallb_forall _ _)); [by rewrite repeat_length|].
    by intros c ->%repeat_spec.
  - intros Hin%list_elem_of_In. by apply repeat_spec in Hin.
Qed.


(** Witness of X2: Ann's token on the store she registered in. *)
Lemma authenticate_attaches_stored_user_witness :
  exists user,
    @authenticate Sample.platform ann_token ann_store = inr user
    /\ u_password user = None
    /\ (exists stored, stored ∈ users ann_store /\ user = select_default stored)
    /\ (exists token, ann_token ≫= bearer_token = Some token
                      /\ @jwt_verify Sample.platform token = Decoded (u_id user)).
Proof.
  eexists. split; [reflexivity|].
  apply (@authenticate_attaches_stored_user Sample.platform ann_token ann_store).
  reflexivity.
Defined.

(** Witness of X3: Ann registers on the empty store. *)
Lemma registered_token_authenticates_witness :
  exists token user s',
    @post_register Sample.platform "salt" ann empty_store
    = (Respond 201 (AuthJson token user), s')
    /\ @authenticate Sample.platform (bearer token) s' = inr user.
Proof.
  apply (@registered_token_authenticates Sample.platform "salt" ann empty_store).
  - apply reachable_empty.
  - apply sample_jwt_sound.
  - reflexivity.
  - reflexivity.
Defined.

(** Witness of X4: [" ANN@X.COM"] after ["ann@x.com"]. *)
Lemma register_twice_conflict_witness :
  @post_register Sample.platform "pepper" ann_again
    (@post_register Sample.platform "salt" ann empty_store).2
  = (Respond 409 (ErrorJson "An account with this email already exists."),
     (@post_register Sample.platform "salt" ann empty_store).2).
Proof.
  apply (@register_twice_conflict Sample.platform "salt" "pepper" ann ann_again
           empty_store); reflexivity.
Defined.

(** Witness of X5: an unknown address, and Ann's with a wrong password. *)
Lemma login_failures_alike_witness :
  @post_login Sample.platform (login_with "bob@x.com" "abc123") ann_store
  = (invalid_login, ann_store)
  /\ @post_login Sample.platform (login_with "ann@x.com" "wrong1") ann_store
     = (invalid_login, ann_store).
Proof.
  split.
  - apply (@login_failures_alike Sample.platform (login_with "bob@x.com" "abc123")
             ann_store); [reflexivity|].
    left. reflexivity.
  - apply (@login_failures_alike Sample.platform (login_with "ann@x.com" "wrong1")
             ann_store); [reflexivity|].
    right. eexists _, _. split; [reflexivity|]. split; reflexivity.
Defined.


(** Witness of X6: what Ann does, seen by user 7. *)
Lemma other_users_unaffected_witness :
  @same_view Sample.platform 7 ann_store
    (@post_task Sample.platform 6 0 (only_title "Pay rent") ann_store).2
  /\ @same_view Sample.platform 7 ann_store
       (@delete_task Sample.platform 0 id_1 ann_store).2
  /\ @same_view Sample.platform 7 ann_store
       (@put_task Sample.platform 6 0 id_1 (only_status "done") ann_store).2.
Proof.
  destruct (@other_users_unaffected Sample.platform 6 0 7 id_1 (only_title "Pay rent")
              ann_store ltac:(lia)) as (Hpost & _).
  destruct (@other_users_unaffected Sample.platform 6 0 7 id_1 (only_status "done")
              ann_store ltac:(lia)) as (_ & Hdelete & Hput).
  split; [exact (Hpost eq_refl)|]. split; [exact Hdelete|exact (Hput eq_refl eq_refl)].
Defined.


(** Witness of X8: Ann deletes her task. *)
Lemma delete_task_removes_one_witness :
  exists l1 l2,
    tasks ann_store = l1 ++ buy_milk :: l2
    /\ @delete_task Sample.platform 0 id_1 ann_store
       = (Respond 200 (MessageJson "Task deleted successfully."),
          with_tasks ann_store (l1 ++ l2))
    /\ (forall id' o,
          @castObjectId Sample.platform id' <> @castObjectId Sample.platform id_1 ->
          @Task_findOne Sample.platform id' o (with_tasks ann_store (l1 ++ l2))
          = @Task_findOne Sample.platform id' o ann_store)
    /\ (tasks_ok ann_store ->
        forall o, @get_task Sample.platform o id_1 (with_tasks ann_store (l1 ++ l2))
                  = (not_found, with_tasks ann_store (l1 ++ l2))).
Proof.
  apply (@delete_task_removes_one Sample.platform 0 id_1 ann_store buy_milk).
  reflexivity.
Defined.

(** Witness of X9: Ann marks her task as done and reads it back. *)
Lemma put_task_touches_one_witness :
  exists t',
    (@put_task Sample.platform 6 0 id_1 (only_status "done") ann_store).1
    = Respond 200 (TaskJson t')
    /\ @get_task Sample.platform 0 id_1
         (@put_task Sample.platform 6 0 id_1 (only_status "done") ann_store).2
       = (Respond 200 (TaskJson t'),
          (@put_task Sample.platform 6 0 id_1 (only_status "done") ann_store).2).
Proof.
  eexists. split; [reflexivity|].
  apply (proj2 (proj2 (@put_task_touches_one Sample.platform 6 0 id_1
                         (only_status "done") ann_store))); reflexivity.
Defined.

(** Witness of X10: the same update of Ann's task twice. *)
Lemma put_task_idempotent_witness :
  @put_task Sample.platform 6 0 id_1 (only_status "done")
    (@put_task Sample.platform 6 0 id_1 (only_status "done") ann_store).2
  = ((@put_task Sample.platform 6 0 id_1 (only_status "done") ann_store).1,
     (@put_task Sample.platform 6 0 id_1 (only_status "done") ann_store).2).
Proof.
  apply (@put_task_idempotent Sample.platform 6 0 id_1 (only_status "done")
           ann_store); reflexivity.
Defined.



(** Witness of X12: Ann searches for ["b.y"]. *)
Lemma listed_tasks_match_query_witness :
  buy_milk ∈ listed (@get_tasks Sample.platform 0 (only_search "b.y") ann_store)
  /\ buy_milk ∈ tasks ann_store /\ t_user buy_milk = 0
  /\ exists test,
       @regex_compile Sample.platform "b.y" = Some test
       /\ (test (t_title buy_milk) = true
           \/ (exists d, t_description buy_milk = Some d /\ test d = true)
           \/ (exists tag, tag ∈ t_tags buy_milk /\ test tag = true)).
Proof.
  assert (buy_milk ∈ listed (@get_tasks Sample.platform 0 (only_search "b.y")
                               ann_store)) as Hin by (left).
  split; [exact Hin|].
  destruct (proj1 (Forall_forall _ _)
              (@listed_tasks_match_query Sample.platform 0 (only_search "b.y")
                 ann_store) buy_milk Hin) as (Hstored & Huser & _ & _ & Hsearch).
  split; [exact Hstored|]. split; [exact Huser|].
  eexists. split; [reflexivity|]. apply (Hsearch "b.y"); reflexivity.
Defined.

(** Witness of X14: the second page of Ann's three tasks, two to a page. *)
Lemma page_length_witness :
  length (listed (@get_tasks Sample.platform 0 (with_page (Z.of_nat 2) (only_limit 2))
                    busy_store))
  = Nat.min 2 (3 - (2 - 1) * 2).
Proof.
  apply (@page_length Sample.platform 0 (only_limit 2) busy_store all_of_ann None 2
           eq_refl eq_refl ltac:(unfold limit_of; simpl; lia) ltac:(lia)).
Defined.

(** Witness of X15: Ann changes her password and logs in with the new one. *)
Lemma new_password_logs_in_witness :
  exists token logged,
    @post_login Sample.platform (login_with " Ann@X.com" "newpass1")
      (@put_password Sample.platform "salt" 0 (change_password "abc123" "newpass1")
         ann_store).2
    = (Respond 200 (AuthJson token logged),
       (@put_password Sample.platform "salt" 0 (change_password "abc123" "newpass1")
          ann_store).2)
    /\ u_id logged = 0 /\ u_email logged = "ann@x.com" /\ u_password logged = None.
Proof.
  apply (@new_password_logs_in Sample.platform "salt" 0
           (change_password "abc123" "newpass1") (login_with " Ann@X.com" "newpass1")
           ann_store
           {| u_id := 0; u_name := "Ann"; u_email := "ann@x.com";
              u_password := Some "salt$abc123"; u_bio := "" |}
           "salt$abc123").
  - apply ann_store_reachable.
  - apply sample_bcrypt_sound.
  - reflexivity.
  - reflexivity.
  - reflexivity.
  - reflexivity.
  - reflexivity.
  - reflexivity.
  - reflexivity.
Defined.

(** Witness of X17: [" home,"] entered and removed again. *)
Lemma removeTag_undoes_addTag_witness :
  ed_tags (addTag "Enter" typing_home) = ["work"; "home"]
  /\ ed_tags (removeTag "home" (addTag "Enter" typing_home)) = ["work"].
Proof.
  split; [reflexivity|].
  apply (removeTag_undoes_addTag "Enter" typing_home).
  vm_compute. intros Hin%list_elem_of_singleton. discriminate Hin.
Defined.



(** A password of two characters outside the Basic Multilingual Plane,
    a capital and a digit has the length 6: the meter shows it at 4, and
    the chain of the registration, which counts 4 characters, refuses
    it. *)
Lemma strength_4_refused :
  JS.utf16_length astral_password = 6 /\ JS.surrogate_pairs astral_password = 2
  /\ passwordStrength astral_password = 4
  /\ @register_validators Sample.platform
       {| r_name := Some "Ann"; r_email := Some "ann@x.com";
          r_password := Some astral_password |}
     = [{| field := "password";
           message := "Password must be at least 6 characters" |}].
Proof. repeat split. Qed.

(** Witness of X20: page 4 of 9. *)
Lemma page_buttons_window_witness :
  length (page_buttons 4 9) = 5
  /\ 4%Z ∈ page_buttons 4 9
  /\ Forall (fun p => (1 <= p <= 9)%Z) (page_buttons 4 9).
Proof. apply (page_buttons_window 4 9). lia. Defined.

(** Witness of X21: the second page of Ann's three tasks shows "3–3". *)
Lemma showing_range_is_page_witness :
  Z.of_nat (length (listed (@get_tasks Sample.platform 0
                              (with_page (Z.of_nat 2) (only_limit 2)) busy_store)))
  = (showing_last 2 2 3 - showing_first 2 2 + 1)%Z.
Proof.
  apply (@showing_range_is_page Sample.platform 0 (only_limit 2) busy_store
           all_of_ann None 2 eq_refl eq_refl
           ltac:(unfold limit_of; simpl; lia) ltac:(lia)).
  vm_compute. lia.
Defined.

(** Witness of X22: the arrow to the next page, on page 1 of 3. *)
Lemma dashboard_requests_pass_chains_witness :
  filters_ok (ui_step NextClicked initial_filters)
  /\ get_tasks_validators (loadTasks (ui_step NextClicked initial_filters)) = [].
Proof.
  destruct dashboard_requests_pass_chains as (Hstart & Hstep & Hrequest).
  assert (filters_ok (ui_step NextClicked initial_filters)) as Hok.
  { apply (Hstep initial_filters 3%Z NextClicked Hstart); simpl; lia. }
  split; [exact Hok|exact (Hrequest _ Hok)].
Defined.
